(** * RemoveDuplicateImages: a shallow embedding of the deduplication pipeline

    The development follows the two source files of the repository:
    [utils.py] (fingerprinting one image, moving and removing files) and
    [remove_duplicate_images.py] (per-directory scan, merge of the
    per-directory signature maps, move/delete planning, reconciliation and
    directory cleanup, exit codes).

    Modelling choices.
    - A [pathlib.Path] is the list of its components; [Path('.')] is the
      empty list.  Paths are taken normalised (no [..], no symbolic links).
    - The file system is a finite map from paths to nodes.  A file node
      carries what the fingerprint provider ([imagehash.phash]) computes
      from its pixels, or nothing when the file does not decode as an image.
    - Python dictionaries keep insertion order, and the planner iterates in
      that order, so a dictionary is an association list.
    - Exceptions and file-system effects are threaded through a small
      state-and-exception monad; every file-system call made by the
      program is also recorded in a log.
    - Thread pools: tasks of one pool are run one after the other in
      submission order, and the order in which [as_completed] hands back
      the futures of a directory is a parameter of the run (the [World]).
      File-system semantics are those of POSIX. *)

From Stdlib Require Import ZArith Ascii String DecimalString.
From stdpp Require Import gmap strings list fin_maps.

Local Open Scope Z_scope.

Abbreviation Path := (list string).

(** ** pathlib: pure path operations *)
Module pathlib.

Definition name (p : Path) : string := List.last p ""%string.

Definition parent (p : Path) : Path := List.removelast p.

(** Joining an empty name leaves the path as it is. *)
Definition joinpath (p : Path) (n : string) : Path :=
  if bool_decide (n = ""%string) then p else p ++ [n].

(** [str.rfind]: index of the last occurrence, [None] for Python's -1. *)
Fixpoint rfind (c : Ascii.ascii) (s : string) : option nat :=
  match s with
  | EmptyString => None
  | String a s' =>
      match rfind c s' with
      | Some i => Some (S i)
      | None => if Ascii.eqb a c then Some 0%nat else None
      end
  end.

(** [0 < i < len(name) - 1] *)
Definition splits_at (nm : string) (i : nat) : bool :=
  (0 <? i)%nat && (i <? String.length nm - 1)%nat.

Definition suffix (p : Path) : string :=
  let nm := name p in
  match rfind "."%char nm with
  | Some i =>
      if splits_at nm i
      then String.substring i (String.length nm - i) nm
      else ""%string
  | None => ""%string
  end.

Definition stem (p : Path) : string :=
  let nm := name p in
  match rfind "."%char nm with
  | Some i => if splits_at nm i then String.substring 0 i nm else nm
  | None => nm
  end.

(** [with_name] raises [ValueError] on a path with an empty name.  (It
    also refuses a new name that is empty or holds a separator; the names
    built here, a stem followed by digits and a suffix, are neither.) *)
Definition with_name (p : Path) (n : string) : option Path :=
  if bool_decide (name p = ""%string) then None
  else Some (parent p ++ [n]).

Definition with_stem (p : Path) (st : string) : option Path :=
  with_name p (st +:+ suffix p).

End pathlib.

(** [str(n)] for a non-negative integer. *)
Definition str (n : nat) : string := NilEmpty.string_of_uint (Nat.to_uint n).

(** ** The file system *)

Inductive Node : Type :=
| Dir
| File (content : option Z).

Abbreviation FS := (gmap Path Node).

Inductive Exn : Type :=
| SystemExit
| ValueError
| IndexError
| FileNotFoundError
| FileExistsError
| IsADirectoryError
| NotADirectoryError
| OSError
| ShutilError.

(** Calls that touch the file system, as the program issues them. *)
Inductive Event : Type :=
| EMkdir (d : Path)
| EScan (d : Path)
| ERename (src dst : Path)
| EMove (src dst : Path)
| ERemove (p : Path)
| ERmtree (d : Path).

Inductive Res (A : Type) : Type :=
| Ok (a : A)
| Raise (e : Exn).
Arguments Ok {A} a.
Arguments Raise {A} e.

#[global] Instance Exn_eq_dec : EqDecision Exn.
Proof. solve_decision. Defined.

#[global] Instance Res_eq_dec {A} `{EqDecision A} : EqDecision (Res A).
Proof. solve_decision. Defined.

Definition completes {A} (r : Res A) : Prop :=
  match r with
  | Ok _ => True
  | Raise _ => False
  end.

Module os.

(** The working directory [Path('.')] always exists. *)
Definition node_at (fs : FS) (p : Path) : option Node :=
  match p with
  | [] => Some Dir
  | _ => fs !! p
  end.

Definition is_dir (fs : FS) (p : Path) : bool :=
  match node_at fs p with Some Dir => true | _ => false end.

Definition is_file (fs : FS) (p : Path) : bool :=
  match node_at fs p with Some (File _) => true | _ => false end.

Definition exists_ (fs : FS) (p : Path) : bool :=
  match node_at fs p with Some _ => true | None => false end.

(** Entries strictly below [d]. *)
Definition below (d p : Path) : Prop := d `prefix_of` p ∧ p ≠ d.

#[global] Instance below_dec d p : Decision (below d p).
Proof. unfold below. apply _. Defined.

Definition is_empty_dir (fs : FS) (d : Path) : bool :=
  bool_decide (Forall (λ p, ¬ below d p) (map_to_list fs).*1).

(** [directory.glob("*")]: the immediate entries of a directory, files
    and sub-directories alike. *)
Definition glob (fs : FS) (d : Path) : list Path :=
  filter (λ p, p ≠ [] ∧ pathlib.parent p = d) (map_to_list fs).*1.

(** Re-rooting of a sub-tree, for a rename whose source is a directory. *)
Definition reroot (src dst p : Path) : Path :=
  if bool_decide (src `prefix_of` p) then dst ++ drop (length src) p else p.

Definition move_tree (fs : FS) (src dst : Path) : FS :=
  list_to_map ((λ kv : Path * Node, (reroot src dst kv.1, kv.2)) <$> map_to_list fs).

(** [os.rename(src, dst)] *)
Definition rename (fs : FS) (src dst : Path) : Res FS :=
  match src, dst with
  | [], _ | _, [] => Raise OSError
  | _, _ =>
      match fs !! src with
      | None => Raise FileNotFoundError
      | Some (File c) =>
          match fs !! dst with
          | Some Dir => Raise IsADirectoryError
          | _ => Ok (<[dst := File c]> (delete src fs))
          end
      | Some Dir =>
          if bool_decide (src = dst) then Ok fs
          else if bool_decide (src `prefix_of` dst) then Raise OSError
          else
            match fs !! dst with
            | Some (File _) => Raise NotADirectoryError
            | Some Dir =>
                if is_empty_dir fs dst
                then Ok (move_tree (delete dst fs) src dst)
                else Raise OSError
            | None => Ok (move_tree fs src dst)
            end
      end
  end.

(** [os.remove(p)] *)
Definition remove (fs : FS) (p : Path) : Res FS :=
  match node_at fs p with
  | None => Raise FileNotFoundError
  | Some Dir => Raise IsADirectoryError
  | Some (File _) => Ok (delete p fs)
  end.

(** [Path.mkdir(parents=True)]: missing ancestors are created, existing
    ones must be directories, the path itself must not exist. *)
Fixpoint make_dirs (fs : FS) (pre rest : Path) : Res FS :=
  match rest with
  | [] => Ok fs
  | c :: rest' =>
      let q := pre ++ [c] in
      match fs !! q with
      | None => make_dirs (<[q := Dir]> fs) q rest'
      | Some Dir =>
          match rest' with
          | [] => Raise FileExistsError
          | _ => make_dirs fs q rest'
          end
      | Some (File _) =>
          match rest' with
          | [] => Raise FileExistsError
          | _ => Raise NotADirectoryError
          end
      end
  end.

Definition mkdir_parents (fs : FS) (p : Path) : Res FS :=
  match p with
  | [] => Raise FileExistsError
  | _ => make_dirs fs [] p
  end.

End os.

Module shutil.

(** [shutil.move(src, dst)]: into [dst] when it is a directory (refusing
    to overwrite an entry of the same name), onto [dst] otherwise. *)
Definition move (fs : FS) (src dst : Path) : Res (FS * Path) :=
  if os.is_dir fs dst then
    if bool_decide (src = dst) then
      match os.rename fs src dst with
      | Ok fs' => Ok (fs', dst)
      | Raise e => Raise e
      end
    else
      let real_dst := pathlib.joinpath dst (pathlib.name src) in
      if os.exists_ fs real_dst then Raise ShutilError
      else
        match os.rename fs src real_dst with
        | Ok fs' => Ok (fs', real_dst)
        | Raise e => Raise e
        end
  else
    match os.rename fs src dst with
    | Ok fs' => Ok (fs', dst)
    | Raise e => Raise e
    end.

(** [shutil.rmtree(d)]: [d] and everything below it; removing the
    working directory empties it and then fails. *)
Definition rmtree (fs : FS) (d : Path) : Res unit * FS :=
  if os.is_dir fs d then
    let fs' := filter (λ kv : Path * Node, ¬ d `prefix_of` kv.1) fs in
    match d with
    | [] => (Raise OSError, fs')
    | _ => (Ok tt, fs')
    end
  else
    (Raise (if os.exists_ fs d then NotADirectoryError else FileNotFoundError), fs).

End shutil.

(** ** State, exceptions and the log of file-system calls *)

Record State : Type := mkState { st_fs : FS; st_log : list Event }.

Definition M (A : Type) : Type := State → Res A * State.

#[global] Instance M_ret : MRet M := λ A a st, (Ok a, st).

#[global] Instance M_bind : MBind M := λ A B k m st,
  match m st with
  | (Ok a, st') => k a st'
  | (Raise e, st') => (Raise e, st')
  end.

Definition raise {A} (e : Exn) : M A := λ st, (Raise e, st).

(** [try: m except Exception as exc: h exc] *)
Definition try_except {A} (m : M A) (h : Exn → M A) : M A := λ st,
  match m st with
  | (Ok a, st') => (Ok a, st')
  | (Raise e, st') => h e st'
  end.

Definition get_fs : M FS := λ st, (Ok (st_fs st), st).

Definition log (ev : Event) : M unit := λ st,
  (Ok tt, mkState (st_fs st) (st_log st ++ [ev])).

(** A file-system call: recorded, then run on the current file system. *)
Definition fs_call {A} (ev : Event) (f : FS → Res A * FS) : M A := λ st,
  let '(r, fs') := f (st_fs st) in (r, mkState fs' (st_log st ++ [ev])).

Definition keep_on_error (fs : FS) (r : Res FS) : Res unit * FS :=
  match r with
  | Ok fs' => (Ok tt, fs')
  | Raise e => (Raise e, fs)
  end.

Fixpoint for_each {A} (l : list A) (body : A → M unit) : M unit :=
  match l with
  | [] => mret tt
  | x :: l' => body x ;; for_each l' body
  end.

(** [Path.rename(target)] returns the target. *)
Definition path_rename (src target : Path) : M Path :=
  fs_call (ERename src target) (λ fs, keep_on_error fs (os.rename fs src target)) ;;
  mret target.

Definition shutil_move (src dst : Path) : M Path :=
  fs_call (EMove src dst) (λ fs,
    match shutil.move fs src dst with
    | Ok (fs', real_dst) => (Ok real_dst, fs')
    | Raise e => (Raise e, fs)
    end).

Definition os_remove (p : Path) : M unit :=
  fs_call (ERemove p) (λ fs, keep_on_error fs (os.remove fs p)).

Definition shutil_rmtree (d : Path) : M unit :=
  fs_call (ERmtree d) (λ fs, shutil.rmtree fs d).

Definition path_mkdir_parents (d : Path) : M unit :=
  fs_call (EMkdir d) (λ fs, keep_on_error fs (os.mkdir_parents fs d)).

(** [ThreadPoolExecutor(max_workers=n)] refuses a non-positive [n]. *)
Definition ThreadPoolExecutor (max_workers : Z) : M unit :=
  if max_workers <=? 0 then raise ValueError else mret tt.

(** ** utils.py *)
Module utils.

Definition MAX_WORKERS : Z := 8.

(** [phash] of the opened image; opening fails on a directory, on a
    missing file and on a file that is not an image. *)
Definition get_image_signature (fs : FS) (image_path : Path) : Res Z :=
  match os.node_at fs image_path with
  | Some (File (Some h)) => Ok h
  | Some (File None) => Raise OSError
  | Some Dir => Raise IsADirectoryError
  | None => Raise FileNotFoundError
  end.

Definition sign_image (fs : FS) (img : Path) : Res (Path * Z) :=
  match get_image_signature fs img with
  | Ok h => Ok (img, h)
  | Raise e => Raise e
  end.

(** [r] is the value [random.randint(0, 10)] returns when it is called. *)
Definition move_file_to_dir (r : nat) (src_file dst_dir : Path) (replace : bool)
  : M Path :=
  fs ← get_fs;
  let dst_file := pathlib.joinpath dst_dir (pathlib.name src_file) in
  src_file ←
    (if os.is_file fs dst_file && negb replace then
       let new_name := pathlib.stem src_file +:+ str r in
       match pathlib.with_stem src_file new_name with
       | Some target => path_rename src_file target
       | None => raise ValueError
       end
     else mret src_file);
  shutil_move src_file dst_dir.

Definition move_files (randint : Path → nat) (file_list : list Path)
    (dst_dir : Path) (max_workers : Z) : M unit :=
  ThreadPoolExecutor max_workers ;;
  for_each file_list (λ src_file,
    try_except
      (move_file_to_dir (randint src_file) src_file dst_dir false ;; mret tt)
      (λ exc, mret tt)).

Definition remove_files (file_list : list Path) (max_workers : Z) : M unit :=
  ThreadPoolExecutor max_workers ;;
  for_each file_list (λ src_file,
    try_except (os_remove src_file) (λ exc, mret tt)).

End utils.

(** ** remove_duplicate_images.py *)

(** A [Dict[int, List[Path]]] in insertion order. *)
Abbreviation Dict := (list (Z * list Path)).

(** [d[k]] on a [defaultdict(list)], read only. *)
Fixpoint dict_get (d : Dict) (k : Z) : list Path :=
  match d with
  | [] => []
  | (k', v) :: d' => if bool_decide (k' = k) then v else dict_get d' k
  end.

(** [d[k].extend(files)] on a [defaultdict(list)]: a missing key is
    inserted last. *)
Fixpoint dict_extend (d : Dict) (k : Z) (files : list Path) : Dict :=
  match d with
  | [] => [(k, files)]
  | (k', v) :: d' =>
      if bool_decide (k' = k) then (k', v ++ files) :: d'
      else (k', v) :: dict_extend d' k files
  end.

(** [d[k].append(file)] *)
Definition dict_append (d : Dict) (k : Z) (file : Path) : Dict :=
  dict_extend d k [file].

(** The parsed command line. *)
Record Namespace : Type := mkNamespace {
  main_directory : Path;
  directories : list Path;
  output : option Path;
  jobs : Z;
  verbosity : Z
}.

(** What a run does not decide itself. *)
Record World : Type := mkWorld {
  (** [arg_parser.parse_args]; [None] when argparse exits *)
  parse_args : list string → option Namespace;
  (** the order in which [as_completed] yields the futures submitted for
      the given candidates *)
  as_completed : list Path → list Path;
  (** the value [random.randint(0, 10)] returns while the given file is moved *)
  randint : Path → nat
}.

(** Body of the loop over completed futures, lines 78-89. *)
Definition collect (fs : FS) (images_signatures : Dict) (image : Path) : Dict :=
  match utils.sign_image fs image with
  | Raise exc => images_signatures
  | Ok (image, signature) => dict_append images_signatures signature image
  end.

Definition process_directory_images (w : World) (fs : FS) (directory : Path)
    (max_workers : Z) : Res Dict :=
  if max_workers <=? 0 then Raise ValueError
  else Ok (fold_left (collect fs) (as_completed w (os.glob fs directory)) []).

(** Lines 236-237: one directory's map is appended to the global one. *)
Definition merge_map (images_id signature_map : Dict) : Dict :=
  fold_left (λ acc '(signature, image_files), dict_extend acc signature image_files)
            signature_map images_id.

(** Lines 230-237, over the results of the directory tasks in the order
    of [dir_list]. *)
Definition merge_results (images_id : Dict) (results : list (Res Dict)) : Dict :=
  fold_left (λ acc future,
               match future with
               | Raise exc => acc
               | Ok signature_map => merge_map acc signature_map
               end)
            results images_id.

(** The global map built from the directories of [dir_list], in that order. *)
Definition merged_index (w : World) (fs : FS) (dir_list : list Path)
    (max_workers : Z) : Dict :=
  merge_results []
    ((λ directory, process_directory_images w fs directory max_workers)
       <$> dir_list).

Definition scan_directories (w : World) (dir_list : list Path) (max_workers : Z)
  : M Dict :=
  ThreadPoolExecutor max_workers ;;
  for_each dir_list (λ directory, log (EScan directory)) ;;
  fs ← get_fs;
  mret (merged_index w fs dir_list max_workers).

(** Lines 184-201: the list of directories to process. *)
Definition resolve_output (ns : Namespace) : Path :=
  match output ns with
  | None => main_directory ns
  | Some o => o
  end.

Definition resolve_dir_list (ns : Namespace) : list Path :=
  let dir_list := main_directory ns :: directories ns in
  let output_directory := resolve_output ns in
  if bool_decide (output_directory ∈ dir_list) then dir_list
  else output_directory :: dir_list.

(** Lines 240-246: body of the planning loop; [image_files[0]] raises
    [IndexError] on an empty list. *)
Definition plan_group (output_directory : Path)
    (acc : list Path * list Path) (image_files : list Path)
  : Res (list Path * list Path) :=
  let '(files_to_move, duplicate_files) := acc in
  match image_files with
  | [] => Raise IndexError
  | to_move :: rest =>
      if bool_decide (pathlib.parent to_move ≠ output_directory)
      then Ok (files_to_move ++ [to_move], duplicate_files ++ rest)
      else Ok (files_to_move, duplicate_files)
  end.

Fixpoint plan_from (output_directory : Path) (images_id : Dict)
    (acc : list Path * list Path) : Res (list Path * list Path) :=
  match images_id with
  | [] => Ok acc
  | (signature, image_files) :: images_id' =>
      match plan_group output_directory acc image_files with
      | Ok acc' => plan_from output_directory images_id' acc'
      | Raise e => Raise e
      end
  end.

Definition plan (output_directory : Path) (images_id : Dict)
  : Res (list Path * list Path) :=
  plan_from output_directory images_id ([], []).

Definition of_res {A} (r : Res A) : M A :=
  match r with
  | Ok a => mret a
  | Raise e => raise e
  end.

(** A task submitted to a pool whose future is never looked at: what it
    raises is lost. *)
Definition submit_and_forget (task : M unit) : M unit :=
  try_except task (λ exc, mret tt).

(** Lines 195-281: what [main] does once its arguments are accepted. *)
Definition pipeline (w : World) (parsed_args : Namespace) : M Z :=
  let MAX_WORKERS := jobs parsed_args in
  let output_directory := resolve_output parsed_args in
  let dir_list := resolve_dir_list parsed_args in
  fs ← get_fs;
  (if os.exists_ fs output_directory then mret tt
   else path_mkdir_parents output_directory) ;;
  images_id ← scan_directories w dir_list MAX_WORKERS;
  '(files_to_move, duplicate_files) ← of_res (plan output_directory images_id);
  ThreadPoolExecutor MAX_WORKERS ;;
  submit_and_forget
    (utils.move_files (randint w) files_to_move output_directory MAX_WORKERS) ;;
  ThreadPoolExecutor MAX_WORKERS ;;
  submit_and_forget (utils.remove_files duplicate_files MAX_WORKERS) ;;
  for_each (tail dir_list) shutil_rmtree ;;
  mret 0.

Definition main (w : World) (argc : Z) (argv : list string) : M Z :=
  if argc <? 3 then mret (-1)
  else
    parsed_args ← (match parse_args w (tail argv) with
                   | Some ns => mret ns
                   | None => raise SystemExit
                   end);
    let dir_list := main_directory parsed_args :: directories parsed_args in
    fs ← get_fs;
    if negb (forallb (os.is_dir fs) dir_list) then mret (-2)
    else pipeline w parsed_args.

(** A run from a given file system: what [main] returns or raises, the
    file system it leaves and the calls it made. *)
Definition run (w : World) (argc : Z) (argv : list string) (fs : FS)
  : Res Z * State :=
  main w argc argv (mkState fs []).

(** ** Notions used in the statements *)

Definition keys (d : Dict) : list Z := d.*1.

(** Every list stored in the dictionary is non-empty. *)
Definition groups_nonempty (d : Dict) : Prop := Forall (λ kv, kv.2 ≠ []) d.

(** [p] is an image whose fingerprint is [s]. *)
Definition signed (fs : FS) (s : Z) (p : Path) : Prop :=
  utils.get_image_signature fs p = Ok s.

#[global] Instance signed_dec fs s p : Decision (signed fs s p).
Proof. unfold signed. apply _. Defined.

(** What one directory contributes under a given fingerprint. *)
Definition directory_list (w : World) (fs : FS) (max_workers : Z) (s : Z)
    (directory : Path) : list Path :=
  match process_directory_images w fs directory max_workers with
  | Ok signature_map => dict_get signature_map s
  | Raise _ => []
  end.

(** [m] can only return [c]: every other outcome is an exception. *)
Definition returns_only {A} (c : A) (m : M A) : Prop :=
  ∀ st, completes (m st).1 → (m st).1 = Ok c.

(** ** Sample inputs *)

Local Open Scope string_scope.

(** Two source directories and a separate output directory. *)
Definition sample_fs : FS :=
  list_to_map
    [ (["X"], Dir); (["Y"], Dir); (["Z"], Dir);
      (["X"; "cat.jpg"], File (Some 11));
      (["X"; "dog.jpg"], File (Some 22));
      (["X"; "notes.txt"], File None);
      (["Y"; "cat_dup.jpg"], File (Some 11));
      (["Y"; "dog.jpg"], File (Some 22));
      (["Z"; "cat_old.jpg"], File (Some 11)) ].

(** The state a run leaves behind: only the output directory, no duplicates. *)
Definition settled_fs : FS :=
  list_to_map
    [ (["Z"], Dir);
      (["Z"; "cat.jpg"], File (Some 11));
      (["Z"; "dog.jpg"], File (Some 22)) ].

(** A file system on which single operations fail: [notes.txt] is not an
    image; moving [X/owl.jpg] meets both [Z/owl.jpg] and [Z/owl7.jpg]; the
    rename of [X/dog.jpg] goes over the duplicate [X/dog7.jpg], which is
    then gone when its deletion is due. *)
Definition faulty_fs : FS :=
  list_to_map
    [ (["X"], Dir); (["Y"], Dir); (["Z"], Dir);
      (["X"; "dog.jpg"], File (Some 22));
      (["X"; "dog7.jpg"], File (Some 22));
      (["X"; "owl.jpg"], File (Some 66));
      (["X"; "notes.txt"], File None);
      (["Y"; "cat.jpg"], File (Some 11));
      (["Z"; "dog.jpg"], File (Some 33));
      (["Z"; "owl.jpg"], File (Some 77));
      (["Z"; "owl7.jpg"], File (Some 88)) ].

Definition sample_args (o : option Path) : Namespace :=
  mkNamespace ["X"] [["Y"]] o 8 0.

Definition sample_world (o : option Path) : World :=
  mkWorld (λ _, Some (sample_args o)) (λ l, l) (λ _, 7%nat).

(** A run in which the argument parser rejects the command line. *)
Definition argparse_exits : World :=
  mkWorld (λ _, None) (λ l, l) (λ _, 0%nat).

(** A run whose second directory, [W], does not exist in [sample_fs]. *)
Definition missing_directory_world : World :=
  mkWorld (λ _, Some (mkNamespace ["X"] [["W"]] None 8 0)) (λ l, l) (λ _, 0%nat).

Local Close Scope string_scope.

(** ** Notions used in the further properties *)

(** The groups the planner does not skip: those whose first record lies
    outside the output directory. *)
Definition outside_output (out : Path) (g : Z * list Path) : Prop :=
  match g.2 with
  | [] => False
  | r0 :: _ => pathlib.parent r0 ≠ out
  end.

#[global] Instance outside_output_dec out g : Decision (outside_output out g).
Proof. unfold outside_output. destruct (g.2); apply _. Defined.

Definition planned_groups (out : Path) (images_id : Dict) : Dict :=
  filter (outside_output out) images_id.

(** All the records of a dictionary, group after group. *)
Definition records (d : Dict) : list Path := concat d.*2.

(** [p] is a candidate whose fingerprint computation succeeds. *)
Definition fingerprints (fs : FS) (p : Path) : Prop :=
  completes (utils.get_image_signature fs p).

#[global] Instance fingerprints_dec fs p : Decision (fingerprints fs p).
Proof.
  unfold fingerprints. destruct (utils.get_image_signature fs p); simpl; apply _.
Defined.

(** The two file systems have the same directories. *)
Definition same_dirs (fs fs' : FS) : Prop :=
  ∀ p, fs !! p = Some Dir ↔ fs' !! p = Some Dir.

(** Every entry lying directly in [d] is in [fs'] what it was in [fs]. *)
Definition entries_kept (d : Path) (fs fs' : FS) : Prop :=
  ∀ p n, pathlib.parent p = d → fs !! p = Some n → fs' !! p = Some n.

(** The events of the move phase. *)
Definition is_move_event (ev : Event) : Prop :=
  match ev with
  | ERename _ _ | EMove _ _ => True
  | _ => False
  end.

(** A command line asking for no worker at all, with an output directory
    still to be created. *)
Definition no_jobs_args : Namespace :=
  mkNamespace ["X"%string] [["Y"%string]] (Some ["N"; "out"]%string) 0 0.

Definition no_jobs_world : World :=
  mkWorld (λ _, Some no_jobs_args) (λ l, l) (λ _, 0%nat).

(** [fs1] and [mk] are the file system and the calls logged once the
    output directory is there: nothing happens when it exists, it is
    created with its missing ancestors otherwise. *)
Definition output_made (fs : FS) (out : Path) (fs1 : FS) (mk : list Event) : Prop :=
  if os.exists_ fs out then fs1 = fs ∧ mk = []
  else os.mkdir_parents fs out = Ok fs1 ∧ mk = [EMkdir out].

(** Two identical images in the main directory, which is also the output
    directory when no [-o] is given. *)
Definition twins_fs : FS :=
  list_to_map
    [ (["X"], Dir); (["Y"], Dir);
      (["X"; "cat.jpg"], File (Some 11));
      (["X"; "cat_copy.jpg"], File (Some 11));
      (["Y"; "dog.jpg"], File (Some 22)) ]%string.

(** * Properties *)

(** ** Dictionaries *)

Lemma dict_get_extend d k files k' :
  dict_get (dict_extend d k files) k'
  = if bool_decide (k = k') then dict_get d k ++ files else dict_get d k'.
Proof.
  induction d as [|[k0 v] d IH]; simpl.
  - repeat case_bool_decide; done.
  - destruct (decide (k0 = k)) as [->|Hk0].
    + rewrite bool_decide_true by done. simpl.
      repeat case_bool_decide; done.
    + rewrite bool_decide_false by done. simpl. rewrite IH.
      repeat case_bool_decide; subst; done.
Qed.

Lemma keys_extend d k files :
  keys (dict_extend d k files) = if bool_decide (k ∈ keys d) then keys d else keys d ++ [k].
Proof.
  unfold keys. induction d as [|[k0 v] d IH]; csimpl; [done|].
  destruct (decide (k0 = k)) as [->|Hk0].
  - rewrite !bool_decide_true by (done || apply list_elem_of_here). done.
  - rewrite bool_decide_false by done. csimpl. rewrite IH.
    destruct (decide (k ∈ d.*1)) as [Hin | Hnin].
    + rewrite !bool_decide_true by (done || by apply list_elem_of_further). done.
    + assert (k ∉ k0 :: d.*1) as Hnin'.
      { rewrite elem_of_cons. by intros [-> | ?]. }
      by rewrite !bool_decide_false.
Qed.

Lemma keys_extend_NoDup d k files : NoDup (keys d) → NoDup (keys (dict_extend d k files)).
Proof.
  intros Hnd. rewrite keys_extend. case_bool_decide; [done|].
  apply NoDup_app. split_and!; [done | | apply NoDup_singleton].
  intros k' Hk' ->%list_elem_of_singleton. done.
Qed.

Lemma groups_nonempty_extend d k files :
  files ≠ [] → groups_nonempty d → groups_nonempty (dict_extend d k files).
Proof.
  intros Hne. unfold groups_nonempty.
  induction d as [|[k0 v] d IH]; simpl; intros Hd.
  - by repeat constructor.
  - inversion_clear Hd as [|?? Hv Hd']. case_bool_decide.
    + constructor; [|done]. simpl in *. by destruct v.
    + constructor; [done | by apply IH].
Qed.

Lemma dict_get_elem d k v : NoDup (keys d) → (k, v) ∈ d → dict_get d k = v.
Proof.
  induction d as [|[k0 v0] d IH]; simpl; intros Hnd Hin.
  - by apply elem_of_nil in Hin.
  - apply NoDup_cons in Hnd as [Hk0 Hnd].
    apply elem_of_cons in Hin as [Heq | Hin].
    + inversion Heq; subst. by rewrite bool_decide_true.
    + case_bool_decide; [|by apply IH]. subst.
      exfalso. apply Hk0. unfold keys. apply list_elem_of_fmap. by exists (k, v).
Qed.

Lemma dict_get_nonempty_elem d k : dict_get d k ≠ [] → (k, dict_get d k) ∈ d.
Proof.
  induction d as [|[k0 v0] d IH]; simpl; [done|].
  case_bool_decide; subst; intros Hne.
  - apply list_elem_of_here.
  - apply list_elem_of_further. by apply IH.
Qed.

Lemma dict_get_missing d k : k ∉ keys d → dict_get d k = [].
Proof.
  unfold keys. induction d as [|[k0 v0] d IH]; csimpl; [done|].
  rewrite not_elem_of_cons. intros [Hne Hnin].
  rewrite bool_decide_false by done. by apply IH.
Qed.

Lemma dict_get_elem_keys d k v : (k, v) ∈ d → k ∈ keys d.
Proof. intros Hin. unfold keys. apply list_elem_of_fmap. by exists (k, v). Qed.

Lemma elem_of_concat {A} (ls : list (list A)) (x : A) :
  x ∈ concat ls ↔ ∃ l, l ∈ ls ∧ x ∈ l.
Proof.
  induction ls as [|l ls IH]; simpl.
  - split; [by intros ?%elem_of_nil | by intros (? & ?%elem_of_nil & _)].
  - rewrite elem_of_app, IH. split.
    + intros [Hx | (l' & Hl' & Hx)].
      * exists l. split; [apply list_elem_of_here | done].
      * exists l'. split; [by apply list_elem_of_further | done].
    + intros (l' & [-> | Hl']%elem_of_cons & Hx); [by left | right; by exists l'].
Qed.

(** ** Scanning one directory *)

Lemma collect_signed fs d p s :
  signed fs s p → collect fs d p = dict_append d s p.
Proof. unfold signed, collect, utils.sign_image. by intros ->. Qed.

Lemma collect_failed fs d p e :
  utils.get_image_signature fs p = Raise e → collect fs d p = d.
Proof. unfold collect, utils.sign_image. by intros ->. Qed.

Lemma collect_cases fs d p :
  (∃ s, signed fs s p ∧ collect fs d p = dict_append d s p)
  ∨ (∃ e, utils.get_image_signature fs p = Raise e ∧ collect fs d p = d).
Proof.
  destruct (utils.get_image_signature fs p) as [s|e] eqn:E.
  - left. exists s. split; [done | by apply collect_signed].
  - right. exists e. split; [done | by eapply collect_failed].
Qed.

Lemma collect_fold_keys fs l d :
  NoDup (keys d) → NoDup (keys (fold_left (collect fs) l d)).
Proof.
  revert d. induction l as [|p l IH]; simpl; intros d Hd; [done|].
  apply IH. destruct (collect_cases fs d p) as [(s & _ & ->) | (e & _ & ->)]; [|done].
  by apply keys_extend_NoDup.
Qed.

Lemma collect_fold_nonempty fs l d :
  groups_nonempty d → groups_nonempty (fold_left (collect fs) l d).
Proof.
  revert d. induction l as [|p l IH]; simpl; intros d Hd; [done|].
  apply IH. destruct (collect_cases fs d p) as [(s & _ & ->) | (e & _ & ->)]; [|done].
  by apply groups_nonempty_extend.
Qed.

Lemma collect_fold_get fs l d s :
  dict_get (fold_left (collect fs) l d) s = dict_get d s ++ filter (signed fs s) l.
Proof.
  revert d. induction l as [|p l IH]; simpl; intros d.
  - by rewrite app_nil_r.
  - rewrite IH. destruct (collect_cases fs d p) as [(s' & Hs' & ->) | (e & He & ->)].
    + unfold dict_append. rewrite dict_get_extend.
      destruct (decide (s' = s)) as [->|Hne].
      * rewrite bool_decide_true by done. rewrite filter_cons_True by done.
        by rewrite <- app_assoc.
      * rewrite bool_decide_false by done. rewrite filter_cons_False; [done|].
        unfold signed in *. congruence.
    + rewrite filter_cons_False; [done|]. unfold signed. congruence.
Qed.

Lemma process_directory_images_keys w fs d mw m :
  process_directory_images w fs d mw = Ok m → NoDup (keys m) ∧ groups_nonempty m.
Proof.
  unfold process_directory_images. case_match; [done|].
  intros [= <-]. split.
  - apply collect_fold_keys. constructor.
  - apply collect_fold_nonempty. constructor.
Qed.

Lemma directory_list_spec w fs mw s d :
  0 < mw →
  directory_list w fs mw s d = filter (signed fs s) (as_completed w (os.glob fs d)).
Proof.
  intros Hmw. unfold directory_list, process_directory_images.
  assert ((mw <=? 0) = false) as -> by lia.
  by rewrite collect_fold_get.
Qed.

(** ** Merging *)

Lemma merge_map_get acc m s :
  NoDup (keys m) → dict_get (merge_map acc m) s = dict_get acc s ++ dict_get m s.
Proof.
  unfold merge_map, keys. revert acc.
  induction m as [|[k v] m IH]; csimpl; intros acc Hnd.
  - by rewrite app_nil_r.
  - apply NoDup_cons in Hnd as [Hk Hnd]. rewrite IH by done.
    rewrite dict_get_extend. case_bool_decide; [|done]. subst.
    rewrite (dict_get_missing m s) by done. by rewrite app_nil_r.
Qed.

Lemma merge_map_keys acc m : NoDup (keys acc) → NoDup (keys (merge_map acc m)).
Proof.
  unfold merge_map. revert acc.
  induction m as [|[k v] m IH]; simpl; intros acc Hnd; [done|].
  by apply IH, keys_extend_NoDup.
Qed.

Lemma merge_map_nonempty acc m :
  groups_nonempty m → groups_nonempty acc → groups_nonempty (merge_map acc m).
Proof.
  unfold merge_map. revert acc.
  induction m as [|[k v] m IH]; simpl; intros acc Hm Hacc; [done|].
  inversion_clear Hm as [|?? Hv Hm']. apply IH; [done|].
  by apply groups_nonempty_extend.
Qed.

Lemma merged_index_keys w fs dir_list mw :
  NoDup (keys (merged_index w fs dir_list mw))
  ∧ groups_nonempty (merged_index w fs dir_list mw).
Proof.
  unfold merged_index, merge_results.
  assert (NoDup (keys []) ∧ groups_nonempty []) as Hinit by (split; constructor).
  revert Hinit. generalize (@nil (Z * list Path)) as acc.
  induction dir_list as [|d dir_list IH]; csimpl; intros acc [Hk Hne]; [done|].
  apply IH.
  destruct (process_directory_images w fs d mw) as [m|e] eqn:E; [|done].
  apply process_directory_images_keys in E as [_ Hm].
  split; [by apply merge_map_keys | by apply merge_map_nonempty].
Qed.

Lemma merged_index_get w fs dir_list mw s :
  dict_get (merged_index w fs dir_list mw) s
  = concat (directory_list w fs mw s <$> dir_list).
Proof.
  unfold merged_index, merge_results.
  change (concat (directory_list w fs mw s <$> dir_list))
    with (dict_get [] s ++ concat (directory_list w fs mw s <$> dir_list)).
  generalize (@nil (Z * list Path)) as acc.
  induction dir_list as [|d dir_list IH]; csimpl; intros acc.
  - by rewrite app_nil_r.
  - rewrite IH, app_assoc. f_equal. unfold directory_list.
    destruct (process_directory_images w fs d mw) as [m|e] eqn:E.
    + apply merge_map_get. by apply process_directory_images_keys in E as [? _].
    + by rewrite app_nil_r.
Qed.

Lemma directory_list_signed w fs mw s d p :
  p ∈ directory_list w fs mw s d → signed fs s p.
Proof.
  unfold directory_list, process_directory_images.
  destruct (mw <=? 0); [by intros ?%elem_of_nil|].
  rewrite collect_fold_get. simpl. by intros [? _]%list_elem_of_filter.
Qed.

Lemma merged_index_group w fs dir_list mw g :
  g ∈ merged_index w fs dir_list mw →
  g.2 = dict_get (merged_index w fs dir_list mw) g.1 ∧ g.2 ≠ [].
Proof.
  destruct g as [k v]. intros Hg. simpl.
  destruct (merged_index_keys w fs dir_list mw) as [Hnd Hne]. split.
  - symmetry. by apply dict_get_elem.
  - unfold groups_nonempty in Hne. rewrite Forall_forall in Hne. by apply (Hne (k, v)).
Qed.

Lemma merged_index_signed w fs dir_list mw g p :
  g ∈ merged_index w fs dir_list mw → p ∈ g.2 → signed fs g.1 p.
Proof.
  intros Hg Hp. apply merged_index_group in Hg as [Heq _].
  rewrite Heq, merged_index_get in Hp.
  apply elem_of_concat in Hp as (l & Hl & Hp).
  apply list_elem_of_fmap in Hl as (d & -> & _).
  by eapply directory_list_signed.
Qed.

Lemma glob_signed fs s p : signed fs s p → p ∈ os.glob fs (pathlib.parent p).
Proof.
  unfold signed, utils.get_image_signature, os.node_at, os.glob.
  destruct p as [|c p]; [done|].
  destruct (fs !! (c :: p)) as [n|] eqn:E; [|done]. intros _.
  apply list_elem_of_filter. split; [done|].
  apply list_elem_of_fmap. exists (c :: p, n). split; [done|].
  by apply elem_of_map_to_list.
Qed.

Lemma merged_index_elem w fs dir_list mw s p :
  0 < mw → (∀ l, as_completed w l ≡ₚ l) →
  p ∈ dict_get (merged_index w fs dir_list mw) s
  ↔ signed fs s p ∧ pathlib.parent p ∈ dir_list.
Proof.
  intros Hmw Hperm. rewrite merged_index_get, elem_of_concat. split.
  - intros (l & (d & -> & Hd)%list_elem_of_fmap & Hp).
    rewrite directory_list_spec in Hp by done.
    apply list_elem_of_filter in Hp as [Hs Hp]. split; [done|].
    rewrite Hperm in Hp. unfold os.glob in Hp.
    apply list_elem_of_filter in Hp as [[_ ->] _]. done.
  - intros [Hs Hd]. exists (directory_list w fs mw s (pathlib.parent p)). split.
    + apply list_elem_of_fmap. by exists (pathlib.parent p).
    + rewrite directory_list_spec by done. apply list_elem_of_filter.
      split; [done|]. rewrite Hperm. by apply (glob_signed fs s).
Qed.

(** ** Planning *)

Lemma plan_from_app out idx1 idx2 acc :
  plan_from out (idx1 ++ idx2) acc
  = match plan_from out idx1 acc with
    | Ok acc' => plan_from out idx2 acc'
    | Raise e => Raise e
    end.
Proof.
  revert acc. induction idx1 as [|[s files] idx1 IH]; simpl; intros acc; [done|].
  destruct (plan_group out acc files); [apply IH | done].
Qed.

Lemma plan_from_acc out idx m0 d0 :
  plan_from out idx (m0, d0)
  = match plan out idx with
    | Ok (m, d) => Ok (m0 ++ m, d0 ++ d)
    | Raise e => Raise e
    end.
Proof.
  unfold plan. revert m0 d0.
  induction idx as [|[s files] idx IH]; simpl; intros m0 d0.
  - by rewrite !app_nil_r.
  - destruct files as [|r rest]; [done|].
    case_bool_decide; simpl.
    + rewrite (IH (m0 ++ [r])), (IH [r] rest).
      destruct (plan_from out idx ([], [])) as [[m d]|e]; [|done].
      by rewrite <- !app_assoc.
    + apply IH.
Qed.

Lemma plan_app out idx1 idx2 m1 d1 m2 d2 :
  plan out idx1 = Ok (m1, d1) → plan out idx2 = Ok (m2, d2) →
  plan out (idx1 ++ idx2) = Ok (m1 ++ m2, d1 ++ d2).
Proof.
  intros H1 H2. unfold plan at 1. rewrite plan_from_app.
  fold (plan out idx1). rewrite H1, plan_from_acc. by rewrite H2.
Qed.

Lemma plan_cons out s files idx m d :
  plan out idx = Ok (m, d) →
  plan out ((s, files) :: idx)
  = match plan_group out ([], []) files with
    | Ok (m0, d0) => Ok (m0 ++ m, d0 ++ d)
    | Raise e => Raise e
    end.
Proof.
  intros H. unfold plan at 1. cbn [plan_from].
  destruct (plan_group out ([], []) files) as [[m0 d0]|e]; [|done].
  by rewrite plan_from_acc, H.
Qed.

Lemma plan_total out idx :
  groups_nonempty idx →
  ∃ m d, plan out idx = Ok (m, d)
         ∧ ∀ p, p ∈ m ∨ p ∈ d → ∃ g, g ∈ idx ∧ p ∈ g.2.
Proof.
  unfold groups_nonempty.
  induction idx as [|[s files] idx IH]; intros Hne.
  - exists [], []. split; [done|]. intros p [?%elem_of_nil | ?%elem_of_nil]; done.
  - inversion_clear Hne as [|?? Hfiles Hidx].
    destruct (IH Hidx) as (m & d & Hplan & Hin).
    rewrite (plan_cons _ _ _ _ _ _ Hplan).
    destruct files as [|r rest]; [done|]. simpl.
    assert (∀ p, p ∈ m ∨ p ∈ d → ∃ g, g ∈ (s, r :: rest) :: idx ∧ p ∈ g.2) as Hin'.
    { intros p Hp. destruct (Hin p Hp) as (g & Hg & Hpg).
      exists g. split; [by apply list_elem_of_further | done]. }
    assert (∀ p, p ∈ r :: rest → ∃ g, g ∈ (s, r :: rest) :: idx ∧ p ∈ g.2) as Hhere.
    { intros p Hp. exists (s, r :: rest). split; [apply list_elem_of_here | done]. }
    case_bool_decide; simpl.
    + eexists _, _. split; [done|].
      intros p [[->|Hp]%elem_of_cons | [Hp|Hp]%elem_of_app]; eauto.
      * apply Hhere, list_elem_of_here.
      * by apply Hhere, list_elem_of_further.
    + exists m, d. split; [done | exact Hin'].
Qed.

Lemma plan_all_in_output out idx :
  groups_nonempty idx →
  Forall (λ g, Forall (λ p, pathlib.parent p = out) g.2) idx →
  plan out idx = Ok ([], []).
Proof.
  unfold groups_nonempty.
  induction idx as [|[s files] idx IH]; intros Hne Hall; [done|].
  inversion_clear Hne as [|?? Hfiles Hidx].
  inversion_clear Hall as [|?? Hhere Hrest].
  rewrite (plan_cons _ _ _ _ _ _ (IH Hidx Hrest)).
  destruct files as [|r rest]; [done|]. simpl in *.
  inversion_clear Hhere as [|?? Hr _].
  by rewrite bool_decide_false by (by intros ?).
Qed.

(** * The claims *)

(** At the level of the planner alone: a group of two whose first record
    lies in the output directory gets no deletion at all. *)
Lemma plan_deletes_rest_counterexample :
  plan ["out"%string] [(7, [["out"; "a.jpg"]; ["src"; "b.jpg"]]%string)] = Ok ([], [])
  ∧ ¬ (∃ moves dels,
         plan ["out"%string] [(7, [["out"; "a.jpg"]; ["src"; "b.jpg"]]%string)]
         = Ok (moves, dels)
         ∧ ["src"; "b.jpg"]%string ∈ dels).
Proof.
  split; [reflexivity|].
  intros (moves & dels & Hplan & Hin).
  vm_compute in Hplan. injection Hplan as <- <-.
  by apply elem_of_nil in Hin.
Qed.

(** A group [r0; r1; ...; rn] whose first record [r0] is not in the
    output directory contributes exactly [r0] to the files to move and
    exactly [r1; ...; rn], in order and whatever their directories, to the
    files to delete. *)
Theorem plan_group_outside_output out idx1 idx2 s r0 rest m1 d1 m2 d2 :
  pathlib.parent r0 ≠ out →
  plan out idx1 = Ok (m1, d1) →
  plan out idx2 = Ok (m2, d2) →
  plan out (idx1 ++ (s, r0 :: rest) :: idx2)
  = Ok (m1 ++ r0 :: m2, d1 ++ rest ++ d2).
Proof.
  intros Hr0 H1 H2.
  apply (plan_app _ _ _ _ _ _ _ H1).
  rewrite (plan_cons _ _ _ _ _ _ H2). simpl.
  by rewrite bool_decide_true.
Qed.

Lemma plan_group_outside_output_witness :
  plan ["Z"%string]
       ([(22, [["Z"; "dog.jpg"]]%string)]
        ++ (11, [["X"; "cat.jpg"]; ["Z"; "cat_old.jpg"]; ["Y"; "cat_dup.jpg"]]%string)
        :: [(33, [["Y"; "owl.jpg"]]%string)])
  = Ok ([] ++ ["X"; "cat.jpg"]%string :: [["Y"; "owl.jpg"]%string],
        [] ++ [["Z"; "cat_old.jpg"]; ["Y"; "cat_dup.jpg"]]%string ++ []).
Proof.
  apply plan_group_outside_output; [by vm_compute | reflexivity | reflexivity].
Defined.

(** C10: a group whose first record lies in the output directory
    contributes nothing, neither a move nor a deletion, whatever its size. *)
Theorem plan_group_in_output out idx1 idx2 s r0 rest m1 d1 m2 d2 :
  pathlib.parent r0 = out →
  plan out idx1 = Ok (m1, d1) →
  plan out idx2 = Ok (m2, d2) →
  plan out (idx1 ++ (s, r0 :: rest) :: idx2) = Ok (m1 ++ m2, d1 ++ d2).
Proof.
  intros Hr0 H1 H2.
  apply (plan_app _ _ _ _ _ _ _ H1).
  rewrite (plan_cons _ _ _ _ _ _ H2). simpl.
  by rewrite bool_decide_false by (by intros ?).
Qed.

Lemma plan_group_in_output_witness :
  plan ["Z"%string]
       ([(22, [["X"; "dog.jpg"]; ["Y"; "dog.jpg"]]%string)]
        ++ (11, [["Z"; "cat_old.jpg"]; ["X"; "cat.jpg"]; ["Y"; "cat_dup.jpg"]]%string)
        :: [])
  = Ok ([["X"; "dog.jpg"]%string] ++ [], [["Y"; "dog.jpg"]%string] ++ []).
Proof.
  apply plan_group_in_output; reflexivity.
Defined.

(** C7: when every record of the merged index lies in the output
    directory, planning schedules no move and no deletion. *)
Theorem plan_idempotent w fs dir_list max_workers out :
  Forall (λ g, Forall (λ p, pathlib.parent p = out) g.2)
         (merged_index w fs dir_list max_workers) →
  plan out (merged_index w fs dir_list max_workers) = Ok ([], []).
Proof.
  intros Hall. apply plan_all_in_output; [|done].
  apply merged_index_keys.
Qed.

Lemma plan_idempotent_witness :
  plan ["Z"%string] (merged_index (sample_world (Some ["Z"%string])) settled_fs
                       [["Z"%string]] 8) = Ok ([], []).
Proof.
  apply plan_idempotent. vm_compute. repeat constructor.
Defined.

(** C3: the directories are processed in the order: the output directory
    (only when it is not among the inputs), the main directory, the other
    directories as supplied; and under every fingerprint the merged list is
    the concatenation, in that order, of what each directory contributes. *)
Theorem directory_order_and_merge w fs ns max_workers s :
  resolve_dir_list ns
  = (if bool_decide (resolve_output ns ∈ main_directory ns :: directories ns)
     then [] else [resolve_output ns])
    ++ main_directory ns :: directories ns
  ∧ dict_get (merged_index w fs (resolve_dir_list ns) max_workers) s
    = concat (directory_list w fs max_workers s <$> resolve_dir_list ns).
Proof.
  split.
  - unfold resolve_dir_list. by case_bool_decide.
  - apply merged_index_get.
Qed.

(** C4: with a deterministic fingerprint (the one the file's content
    determines), two fingerprinted images of the scanned directories share
    a group exactly when their fingerprints are equal, and each of them
    lies in exactly one group; no fingerprint keys two groups. *)
Theorem grouping_correct w fs dir_list max_workers p q sp sq :
  0 < max_workers →
  (∀ l, as_completed w l ≡ₚ l) →
  pathlib.parent p ∈ dir_list → pathlib.parent q ∈ dir_list →
  utils.get_image_signature fs p = Ok sp →
  utils.get_image_signature fs q = Ok sq →
  let images_id := merged_index w fs dir_list max_workers in
  ((∃ g, g ∈ images_id ∧ p ∈ g.2 ∧ q ∈ g.2) ↔ sp = sq)
  ∧ (∃ g, (g ∈ images_id ∧ p ∈ g.2)
          ∧ ∀ g', g' ∈ images_id ∧ p ∈ g'.2 → g' = g)
  ∧ NoDup (keys images_id).
Proof.
  intros Hmw Hperm Hp Hq Hsp Hsq images_id.
  rewrite (and_assoc _ _ (NoDup _)). split; [|apply merged_index_keys].
  assert (∀ g x, g ∈ images_id → x ∈ g.2 → signed fs g.1 x) as Hsigned.
  { intros g x. apply merged_index_signed. }
  assert (∀ s x, signed fs s x → pathlib.parent x ∈ dir_list →
                 (s, dict_get images_id s) ∈ images_id ∧ x ∈ dict_get images_id s)
    as Hgroup.
  { intros s x Hs Hx.
    assert (x ∈ dict_get images_id s) as Hin by by apply merged_index_elem.
    split; [|done]. apply dict_get_nonempty_elem. intros Hnil.
    rewrite Hnil in Hin. by apply elem_of_nil in Hin. }
  split; [split|].
  - intros (g & Hg & Hpg & Hqg).
    pose proof (Hsigned g p Hg Hpg) as H1. pose proof (Hsigned g q Hg Hqg) as H2.
    unfold signed in *. congruence.
  - intros <-. destruct (Hgroup sp p Hsp Hp) as [Hg Hpg].
    destruct (Hgroup sp q Hsq Hq) as [_ Hqg]. by exists (sp, dict_get images_id sp).
  - destruct (Hgroup sp p Hsp Hp) as [Hg Hpg].
    exists (sp, dict_get images_id sp). split; [done|].
    intros [k v] [Hg' Hpg'].
    pose proof (Hsigned _ _ Hg' Hpg') as Hk. simpl in Hk.
    assert (k = sp) as -> by (unfold signed in *; congruence).
    f_equal. apply (merged_index_group _ _ _ _ _ Hg').
Qed.

Lemma grouping_correct_witness :
  let images_id := merged_index (sample_world None) sample_fs
                     [["X"%string]; ["Y"%string]] 8 in
  ((∃ g, g ∈ images_id ∧ ["X"; "cat.jpg"]%string ∈ g.2
         ∧ ["Y"; "cat_dup.jpg"]%string ∈ g.2) ↔ 11 = 11)
  ∧ (∃ g, (g ∈ images_id ∧ ["X"; "cat.jpg"]%string ∈ g.2)
          ∧ ∀ g', g' ∈ images_id ∧ ["X"; "cat.jpg"]%string ∈ g'.2 → g' = g)
  ∧ NoDup (keys images_id).
Proof.
  apply grouping_correct;
    [ lia | intros l; reflexivity
    | apply list_elem_of_here
    | apply list_elem_of_further, list_elem_of_here
    | reflexivity | reflexivity ].
Defined.

(** C5: a candidate whose fingerprint computation raises is in no group
    of the merged index, is scheduled neither for a move nor for a
    deletion, and the scan of its directory goes on as if it were absent. *)
Theorem failed_item_dropped w fs dir_list max_workers out p e :
  utils.get_image_signature fs p = Raise e →
  let images_id := merged_index w fs dir_list max_workers in
  (∀ g, g ∈ images_id → p ∉ g.2)
  ∧ (∃ files_to_move duplicate_files,
        (plan out images_id = Ok (files_to_move, duplicate_files))
        ∧ (p ∉ files_to_move) ∧ (p ∉ duplicate_files))
  ∧ (∀ before after acc,
        fold_left (collect fs) (before ++ p :: after) acc
        = fold_left (collect fs) (before ++ after) acc).
Proof.
  intros He images_id.
  assert (∀ g, g ∈ images_id → p ∉ g.2) as Hnot.
  { intros g Hg Hp. pose proof (merged_index_signed _ _ _ _ _ _ Hg Hp) as Hs.
    unfold signed in Hs. congruence. }
  split; [done | split].
  - destruct (plan_total out images_id) as (m & d & Hplan & Hin).
    { apply merged_index_keys. }
    exists m, d. split; [done|].
    split; intros Hp.
    + destruct (Hin p (or_introl Hp)) as (g & Hg & Hpg). by apply (Hnot g).
    + destruct (Hin p (or_intror Hp)) as (g & Hg & Hpg). by apply (Hnot g).
  - intros before after acc. rewrite !fold_left_app. simpl.
    by rewrite (collect_failed _ _ _ _ He).
Qed.

Lemma failed_item_dropped_witness :
  let p := ["X"; "notes.txt"]%string in
  let images_id := merged_index (sample_world None) sample_fs
                     [["X"%string]; ["Y"%string]] 8 in
  (∀ g, g ∈ images_id → p ∉ g.2)
  ∧ (∃ files_to_move duplicate_files,
        (plan ["X"%string] images_id = Ok (files_to_move, duplicate_files))
        ∧ (p ∉ files_to_move) ∧ (p ∉ duplicate_files))
  ∧ (∀ before after acc,
        fold_left (collect sample_fs) (before ++ p :: after) acc
        = fold_left (collect sample_fs) (before ++ after) acc).
Proof.
  apply (failed_item_dropped _ _ _ _ _ _ OSError). reflexivity.
Defined.

(** ** Runs of [main] *)

Lemma returns_only_ret {A} (c : A) : returns_only c (mret c).
Proof. by intros st _. Qed.

Lemma returns_only_bind {A B} (c : B) (m : M A) (k : A → M B) :
  (∀ a, returns_only c (k a)) → returns_only c (m ≫= k).
Proof.
  intros Hk st. unfold mbind, M_bind.
  destruct (m st) as [[a|e] st']; [apply Hk | done].
Qed.

Lemma run_validated w argc argv fs ns :
  3 ≤ argc →
  parse_args w (tail argv) = Some ns →
  forallb (os.is_dir fs) (main_directory ns :: directories ns) = true →
  run w argc argv fs = pipeline w ns (mkState fs []).
Proof.
  intros Hargc Hparse Hdirs. unfold run, main.
  assert ((argc <? 3) = false) as -> by lia.
  rewrite Hparse. unfold mbind, M_bind, mret, M_ret, get_fs. cbn [st_fs].
  by rewrite Hdirs.
Qed.

Lemma pipeline_returns_only w ns : returns_only 0 (pipeline w ns).
Proof.
  unfold pipeline.
  repeat (apply returns_only_bind; intros; try case_match).
  all: apply returns_only_ret.
Qed.

Lemma run_not_minus_one w argc argv fs :
  3 ≤ argc → (run w argc argv fs).1 ≠ Ok (-1).
Proof.
  intros Hargc. unfold run, main.
  assert ((argc <? 3) = false) as -> by lia.
  destruct (parse_args w (tail argv)) as [ns|]; [|done].
  unfold mbind, M_bind, mret, M_ret, get_fs. cbn [st_fs].
  destruct (forallb (os.is_dir fs) (main_directory ns :: directories ns));
    cbn [negb]; [|done].
  intros Hret.
  pose proof (pipeline_returns_only w ns (mkState fs [])) as H0.
  rewrite Hret in H0. by specialize (H0 I).
Qed.

(** C6 fails on the code for [prog X -j 4]: the test of line 160, meant
    to demand two directories, counts command-line words; this line has
    four, so it passes the test and the run cannot return -1 whatever the
    argument parser does; the parser, short of one positional argument,
    exits by itself. *)
Lemma one_directory_with_option_counterexample :
  run argparse_exits 4 ["prog"; "X"; "-j"; "4"]%string sample_fs
    = (Raise SystemExit, mkState sample_fs [])
  ∧ ∀ w fs, (run w 4 ["prog"; "X"; "-j"; "4"]%string fs).1 ≠ Ok (-1).
Proof.
  split; [reflexivity|]. intros w fs. by apply run_not_minus_one.
Qed.

(** What the two tests of [main] do: it returns -1 exactly when it is
    given fewer than three command-line words ([argc < 3]), and returns -2
    when the main directory or one of the positional directories is not an
    existing directory; in both cases nothing was scanned and the file
    system is as it was. *)
Theorem config_errors_abort w argc argv fs :
  (argc < 3 → run w argc argv fs = (Ok (-1), mkState fs []))
  ∧ (3 ≤ argc → (run w argc argv fs).1 ≠ Ok (-1))
  ∧ (∀ ns, 3 ≤ argc → parse_args w (tail argv) = Some ns →
           Exists (λ d, os.is_dir fs d = false)
                  (main_directory ns :: directories ns) →
           run w argc argv fs = (Ok (-2), mkState fs [])).
Proof.
  split_and!.
  - intros Hargc. unfold run, main.
    by assert ((argc <? 3) = true) as -> by lia.
  - apply run_not_minus_one.
  - intros ns Hargc Hparse Hdir. unfold run, main.
    assert ((argc <? 3) = false) as -> by lia.
    rewrite Hparse. unfold mbind, M_bind, mret, M_ret, get_fs. cbn [st_fs].
    assert (forallb (os.is_dir fs) (main_directory ns :: directories ns) = false) as ->;
      [|done].
    apply not_true_is_false. intros Hall.
    rewrite forallb_forall in Hall.
    apply Exists_exists in Hdir as (d & Hd & Hfalse).
    apply list_elem_of_In, Hall in Hd. congruence.
Qed.

Lemma config_errors_abort_witness :
  run (sample_world None) 2 ["prog"; "X"]%string sample_fs
    = (Ok (-1), mkState sample_fs [])
  ∧ (run (sample_world None) 3 ["prog"; "X"; "Y"]%string sample_fs).1 ≠ Ok (-1)
  ∧ run missing_directory_world 3 ["prog"; "X"; "W"]%string sample_fs
    = (Ok (-2), mkState sample_fs []).
Proof.
  split_and!.
  - apply config_errors_abort. lia.
  - apply config_errors_abort. lia.
  - eapply (proj2 (proj2 (config_errors_abort _ _ _ _))); [lia | reflexivity |].
    apply Exists_cons_tl, Exists_cons_hd. reflexivity.
Defined.

(** A run that meets a failure of each kind, a fingerprint that cannot be
    computed, a move refused and a removal of a file already gone, and
    still ends with 0: the owl image is moved nowhere and disappears with
    [X]. *)
Example faulty_run :
  utils.get_image_signature faulty_fs ["X"; "notes.txt"]%string = Raise OSError
  ∧ run (sample_world (Some ["Z"%string])) 5
        ["prog"; "X"; "Y"; "-o"; "Z"]%string faulty_fs
    = (Ok 0,
       mkState
         (list_to_map
            [ (["Z"], Dir);
              (["Z"; "cat.jpg"], File (Some 11));
              (["Z"; "dog.jpg"], File (Some 33));
              (["Z"; "dog7.jpg"], File (Some 22));
              (["Z"; "owl.jpg"], File (Some 77));
              (["Z"; "owl7.jpg"], File (Some 88)) ]%string)
         [ EScan ["Z"]; EScan ["X"]; EScan ["Y"];
           ERename ["X"; "owl.jpg"] ["X"; "owl7.jpg"];
           EMove ["X"; "owl7.jpg"] ["Z"];
           ERename ["X"; "dog.jpg"] ["X"; "dog7.jpg"];
           EMove ["X"; "dog7.jpg"] ["Z"];
           EMove ["Y"; "cat.jpg"] ["Z"];
           ERemove ["X"; "dog7.jpg"];
           ERmtree ["X"]; ERmtree ["Y"] ]%string).
Proof. split; by vm_compute. Qed.

(** C9: when a file named like the source exists in the destination
    directory and [replace] is off, the source is first renamed, inside its
    own directory, to its stem followed by the decimal digits of the number
    drawn and by its suffix, and what is then moved is the renamed file
    (nothing is moved if the rename fails); when no such file exists the
    source is moved as it is. *)
Theorem move_file_to_dir_collision r src_file dst_dir replace st :
  let fs := st_fs st in
  let dst_file := pathlib.joinpath dst_dir (pathlib.name src_file) in
  let new_name :=
    ((pathlib.stem src_file +:+ str r) +:+ pathlib.suffix src_file)%string in
  let target := pathlib.parent src_file ++ [new_name] in
  (os.is_file fs dst_file = true → replace = false →
   pathlib.name src_file ≠ ""%string →
     pathlib.parent target = pathlib.parent src_file
     ∧ pathlib.name target = new_name
     ∧ utils.move_file_to_dir r src_file dst_dir replace st
       = match os.rename fs src_file target with
         | Ok fs' =>
             shutil_move target dst_dir
               (mkState fs' (st_log st ++ [ERename src_file target]))
         | Raise e =>
             (Raise e, mkState fs (st_log st ++ [ERename src_file target]))
         end)
  ∧ (os.is_file fs dst_file = false →
     utils.move_file_to_dir r src_file dst_dir replace st
     = shutil_move src_file dst_dir st).
Proof.
  intros fs dst_file new_name target. split.
  - intros Hfile -> Hname. split_and!.
    + unfold target, pathlib.parent. apply removelast_last.
    + unfold target, pathlib.name. apply last_last.
    + unfold utils.move_file_to_dir.
      unfold mbind at 1, M_bind at 1, get_fs at 1.
      fold fs dst_file. rewrite Hfile. cbn [andb negb].
      unfold pathlib.with_stem, pathlib.with_name.
      rewrite bool_decide_false by done.
      fold new_name target.
      unfold path_rename, fs_call. unfold mbind, M_bind, mret, M_ret.
      cbn [st_fs st_log]. fold fs.
      by destruct (os.rename fs src_file target).
  - intros Hfile. unfold utils.move_file_to_dir.
    unfold mbind at 1, M_bind at 1, get_fs at 1.
    fold fs dst_file. rewrite Hfile. cbn [andb].
    unfold mbind, M_bind, mret, M_ret. by destruct st.
Qed.

Lemma move_file_to_dir_collision_witness :
  utils.move_file_to_dir 7 ["X"; "dog.jpg"]%string ["Z"%string] false
    (mkState sample_fs [])
  = (Ok ["Z"; "dog.jpg"]%string,
     mkState (<[["Z"; "dog.jpg"]%string := File (Some 22)]>
                (delete ["X"; "dog.jpg"]%string sample_fs))
             [EMove ["X"; "dog.jpg"]%string ["Z"%string]])
  ∧ utils.move_file_to_dir 7 ["X"; "dog.jpg"]%string ["Y"%string] false
      (mkState sample_fs [])
    = (Ok ["Y"; "dog7.jpg"]%string,
       mkState (<[["Y"; "dog7.jpg"]%string := File (Some 22)]>
                  (delete ["X"; "dog.jpg"]%string sample_fs))
               [ERename ["X"; "dog.jpg"] ["X"; "dog7.jpg"];
                EMove ["X"; "dog7.jpg"] ["Y"]]%string).
Proof.
  split.
  - rewrite (proj2 (move_file_to_dir_collision _ _ _ _ _)) by reflexivity.
    by vm_compute.
  - destruct (proj1 (move_file_to_dir_collision 7 ["X"; "dog.jpg"]%string
                       ["Y"%string] false (mkState sample_fs []))
                eq_refl eq_refl) as (_ & _ & ->); [by vm_compute|].
    by vm_compute.
Defined.

(** C2 fails on the code when [-o] names one of the other directories:
    the list of directories is then [X; Y] with the output directory [Y]
    second, the cleanup removes everything but the first entry, and so the
    run deletes its own output with every image in it and keeps [X]. *)
Theorem cleanup_removes_output_given_among_inputs :
  let ns := sample_args (Some ["Y"%string]) in
  let result := run (sample_world (Some ["Y"%string])) 5
                    ["prog"; "X"; "Y"; "-o"; "Y"]%string sample_fs in
  resolve_output ns = ["Y"%string]
  ∧ resolve_dir_list ns = [["X"%string]; ["Y"%string]]
  ∧ result.1 = Ok 0
  ∧ os.is_dir (st_fs result.2) ["Y"%string] = false
  ∧ os.is_dir (st_fs result.2) ["X"%string] = true
  ∧ st_fs result.2
    = list_to_map [ (["X"], Dir); (["X"; "notes.txt"], File None);
                    (["Z"], Dir); (["Z"; "cat_old.jpg"], File (Some 11)) ]%string.
Proof. split_and!; by vm_compute. Qed.

(** * Further properties *)

(** ** The planner as a whole *)

Lemma plan_filter_form out idx :
  groups_nonempty idx →
  plan out idx
  = Ok (omap (λ g, head g.2) (planned_groups out idx),
        concat ((λ g, tail g.2) <$> planned_groups out idx)).
Proof.
  unfold groups_nonempty, planned_groups.
  induction idx as [|[s files] idx IH]; intros Hne; [done|].
  inversion_clear Hne as [|?? Hfiles Hidx].
  rewrite (plan_cons _ _ _ _ _ _ (IH Hidx)).
  destruct files as [|r0 rest]; [done|]. simpl.
  destruct (decide (pathlib.parent r0 = out)) as [Heq | Hneq].
  - rewrite bool_decide_false by (by intros ?).
    by rewrite filter_cons_False by (by intros ?).
  - rewrite bool_decide_true by done.
    by rewrite filter_cons_True by done.
Qed.

(** X1: on a dictionary without empty lists the planner returns, the
    files to move are the first records of the groups whose first record
    is outside the output directory, in dictionary order, and the files to
    delete are the remaining records of exactly those groups. *)
Theorem plan_closed_form out idx :
  groups_nonempty idx →
  plan out idx
  = Ok (omap (λ g, head g.2) (planned_groups out idx),
        concat ((λ g, tail g.2) <$> planned_groups out idx)).
Proof. apply plan_filter_form. Qed.

Lemma plan_closed_form_witness :
  let idx := [(11, [["Z"; "cat_old.jpg"]; ["X"; "cat.jpg"]]%string);
              (22, [["X"; "dog.jpg"]; ["Y"; "dog.jpg"]; ["Z"; "dog.jpg"]]%string);
              (33, [["Y"; "owl.jpg"]]%string)] in
  plan ["Z"%string] idx
  = Ok (omap (λ g, head g.2) (planned_groups ["Z"%string] idx),
        concat ((λ g, tail g.2) <$> planned_groups ["Z"%string] idx)).
Proof.
  apply plan_closed_form. repeat constructor; done.
Defined.

(** X2: the first empty list the planning loop meets makes it raise
    [IndexError], whatever follows. *)
Theorem plan_empty_group out idx1 idx2 s :
  groups_nonempty idx1 →
  plan out (idx1 ++ (s, []) :: idx2) = Raise IndexError.
Proof.
  intros Hne. unfold plan. rewrite plan_from_app.
  fold (plan out idx1). by rewrite (plan_filter_form _ _ Hne).
Qed.

Lemma plan_empty_group_witness :
  plan ["Z"%string]
       ([(22, [["X"; "dog.jpg"]]%string)] ++ (11, []) :: [(33, [["Y"; "owl.jpg"]]%string)])
  = Raise IndexError.
Proof.
  apply plan_empty_group. repeat constructor; done.
Defined.

Lemma plan_merged_index_ok w fs dir_list max_workers out :
  ∃ files_to_move duplicate_files,
    plan out (merged_index w fs dir_list max_workers)
    = Ok (files_to_move, duplicate_files)
    ∧ (∀ p, p ∈ files_to_move → pathlib.parent p ≠ out)
    ∧ (∀ p, p ∈ files_to_move ∨ p ∈ duplicate_files →
            ∃ s, signed fs s p
                 ∧ p ∈ dict_get (merged_index w fs dir_list max_workers) s).
Proof.
  destruct (merged_index_keys w fs dir_list max_workers) as [Hnd Hne].
  eexists _, _. split; [by apply plan_filter_form | split].
  - intros p (g & Hg & Hp)%list_elem_of_omap.
    apply list_elem_of_filter in Hg as [Hout _].
    unfold outside_output in Hout. destruct (g.2) as [|r0 rest]; [done|].
    simpl in Hp. by injection Hp as <-.
  - intros p Hp.
    assert (∃ g, g ∈ merged_index w fs dir_list max_workers ∧ p ∈ g.2)
      as (g & Hg & Hpg).
    { destruct Hp as [(g & Hg & Hp)%list_elem_of_omap | Hp].
      - apply list_elem_of_filter in Hg as [_ Hg]. exists g. split; [done|].
        destruct (g.2) as [|r0 rest]; [done|]. simpl in Hp. injection Hp as <-.
        apply list_elem_of_here.
      - apply elem_of_concat in Hp as (l & (g & -> & Hg)%list_elem_of_fmap & Hp).
        apply list_elem_of_filter in Hg as [_ Hg]. exists g. split; [done|].
        destruct (g.2) as [|r0 rest]; [done|]. by apply list_elem_of_further. }
    exists g.1. split; [by eapply merged_index_signed|].
    by rewrite <- (proj1 (merged_index_group _ _ _ _ _ Hg)).
Qed.

(** X3: on the index merged from any directories the planner never
    raises; no file it schedules for a move lies in the output directory,
    and every file it schedules, for a move or for a deletion, is a
    fingerprinted entry of that index. *)
Theorem plan_of_merged_index w fs dir_list max_workers out :
  ∃ files_to_move duplicate_files,
    plan out (merged_index w fs dir_list max_workers)
    = Ok (files_to_move, duplicate_files)
    ∧ (∀ p, p ∈ files_to_move → pathlib.parent p ≠ out)
    ∧ (∀ p, p ∈ files_to_move ∨ p ∈ duplicate_files →
            ∃ s, signed fs s p
                 ∧ p ∈ dict_get (merged_index w fs dir_list max_workers) s).
Proof. apply plan_merged_index_ok. Qed.

(** ** The list of directories *)

(** X4: the list of directories holds the output directory, the main
    directory and the supplied directories and nothing else; it ends with
    the main directory followed by the supplied ones; and it repeats no
    directory when the command line repeats none. *)
Theorem resolve_dir_list_members ns :
  (∀ d, d ∈ resolve_dir_list ns
        ↔ d = resolve_output ns ∨ d = main_directory ns ∨ d ∈ directories ns)
  ∧ main_directory ns :: directories ns `suffix_of` resolve_dir_list ns
  ∧ (NoDup (main_directory ns :: directories ns) → NoDup (resolve_dir_list ns)).
Proof.
  unfold resolve_dir_list. split_and!.
  - intros d. case_bool_decide as Hin.
    + rewrite elem_of_cons. split; [tauto|].
      intros [-> | H]; [|done]. by apply elem_of_cons in Hin.
    + rewrite !elem_of_cons. tauto.
  - case_bool_decide; [done|]. by apply suffix_cons_r.
  - intros Hnd. case_bool_decide as Hin; [done|]. by apply NoDup_cons.
Qed.

(** X5: the directories the cleanup removes, all but the first of the
    list, include the output directory exactly when the output directory
    is one of the directories supplied after the main directory. *)
Theorem output_in_cleanup_iff ns :
  resolve_output ns ∈ tail (resolve_dir_list ns)
  ↔ resolve_output ns ∈ directories ns.
Proof.
  unfold resolve_dir_list. case_bool_decide as Hin; simpl; [done|].
  split; intros H; [done|]. exfalso. apply Hin. by apply list_elem_of_further.
Qed.

(** ** Scanning and merging: nothing lost, nothing invented *)

Lemma records_extend d k files : records (dict_extend d k files) ≡ₚ records d ++ files.
Proof.
  unfold records. induction d as [|[k0 v] d IH]; csimpl.
  - by rewrite app_nil_r.
  - case_bool_decide; csimpl.
    + rewrite <- !app_assoc. apply Permutation_app_head, Permutation_app_comm.
    + rewrite IH. by rewrite app_assoc.
Qed.

Lemma signed_fingerprints fs s p : signed fs s p → fingerprints fs p.
Proof. unfold signed, fingerprints. by intros ->. Qed.

Lemma records_collect fs l d :
  records (fold_left (collect fs) l d) ≡ₚ records d ++ filter (fingerprints fs) l.
Proof.
  revert d. induction l as [|p l IH]; simpl; intros d.
  - by rewrite app_nil_r.
  - rewrite IH. destruct (collect_cases fs d p) as [(s & Hs & ->) | (e & He & ->)].
    + rewrite filter_cons_True by by eapply signed_fingerprints.
      unfold dict_append. rewrite records_extend. by rewrite <- app_assoc.
    + rewrite filter_cons_False; [done|]. unfold fingerprints. rewrite He. by intros [].
Qed.

Lemma records_merge_map acc m : records (merge_map acc m) ≡ₚ records acc ++ records m.
Proof.
  unfold merge_map. revert acc.
  induction m as [|[k v] m IH]; simpl; intros acc.
  - by rewrite app_nil_r.
  - rewrite IH, records_extend. unfold records. csimpl. by rewrite <- app_assoc.
Qed.

Lemma records_merged_index w fs dir_list mw :
  0 < mw →
  records (merged_index w fs dir_list mw)
  ≡ₚ concat ((λ d, filter (fingerprints fs) (as_completed w (os.glob fs d)))
               <$> dir_list).
Proof.
  intros Hmw. unfold merged_index, merge_results.
  transitivity
    (records [] ++ concat ((λ d, filter (fingerprints fs) (as_completed w (os.glob fs d)))
                              <$> dir_list)); [|done].
  generalize (@nil (Z * list Path)) as acc.
  induction dir_list as [|d dir_list IH]; csimpl; intros acc.
  - by rewrite app_nil_r.
  - rewrite IH, app_assoc. apply Permutation_app_tail.
    unfold process_directory_images.
    assert ((mw <=? 0) = false) as -> by lia.
    rewrite records_merge_map. apply Permutation_app_head.
    by rewrite records_collect.
Qed.

(** X6: scanning one directory with a non-positive number of workers
    raises [ValueError]; otherwise it yields a dictionary with pairwise
    distinct keys and no empty list, in which every fingerprint maps to the
    candidates of that directory having this fingerprint, in the order in
    which their computations completed. *)
Theorem process_directory_images_spec w fs directory max_workers :
  (max_workers ≤ 0 →
   process_directory_images w fs directory max_workers = Raise ValueError)
  ∧ (0 < max_workers →
     ∃ m, process_directory_images w fs directory max_workers = Ok m
          ∧ NoDup (keys m) ∧ groups_nonempty m
          ∧ ∀ s, dict_get m s
                 = filter (signed fs s) (as_completed w (os.glob fs directory))).
Proof.
  unfold process_directory_images. split; intros Hmw.
  - by assert ((max_workers <=? 0) = true) as -> by lia.
  - assert ((max_workers <=? 0) = false) as -> by lia.
    eexists. split; [done|]. split_and!.
    + apply collect_fold_keys. constructor.
    + apply collect_fold_nonempty. constructor.
    + intros s. by rewrite collect_fold_get.
Qed.

Lemma process_directory_images_spec_witness :
  process_directory_images (sample_world None) sample_fs ["X"%string] 0
    = Raise ValueError
  ∧ ∃ m, process_directory_images (sample_world None) sample_fs ["X"%string] 8 = Ok m
         ∧ NoDup (keys m) ∧ groups_nonempty m
         ∧ ∀ s, dict_get m s
                = filter (signed sample_fs s)
                         (as_completed (sample_world None)
                            (os.glob sample_fs ["X"%string])).
Proof.
  split.
  - apply process_directory_images_spec. lia.
  - apply process_directory_images_spec. lia.
Defined.

Lemma records_merged_index_glob w fs dir_list max_workers :
  0 < max_workers →
  (∀ l, as_completed w l ≡ₚ l) →
  records (merged_index w fs dir_list max_workers)
  ≡ₚ concat ((λ d, filter (fingerprints fs) (os.glob fs d)) <$> dir_list).
Proof.
  intros Hmw Hperm. rewrite records_merged_index by done.
  induction dir_list as [|d dir_list IH]; csimpl; [done|].
  rewrite IH. apply Permutation_app_tail. by rewrite Hperm.
Qed.

(** X7: the merged index holds, up to order, exactly the candidates of
    the listed directories whose fingerprint computation succeeded, each as
    many times as its directory is listed: merging loses and invents
    nothing. *)
Theorem merged_index_conserves w fs dir_list max_workers :
  0 < max_workers →
  (∀ l, as_completed w l ≡ₚ l) →
  records (merged_index w fs dir_list max_workers)
  ≡ₚ concat ((λ d, filter (fingerprints fs) (os.glob fs d)) <$> dir_list).
Proof. apply records_merged_index_glob. Qed.

Lemma merged_index_conserves_witness :
  records (merged_index (sample_world None) sample_fs [["X"%string]; ["Y"%string]] 8)
  ≡ₚ concat ((λ d, filter (fingerprints sample_fs) (os.glob sample_fs d))
               <$> [["X"%string]; ["Y"%string]]).
Proof.
  apply merged_index_conserves; [lia | intros l; reflexivity].
Defined.

(** ** Removing files *)

Lemma is_file_lookup fs q :
  os.is_file fs q = true ↔ q ≠ [] ∧ ∃ c, fs !! q = Some (File c).
Proof.
  unfold os.is_file, os.node_at. destruct q as [|a q].
  - split; [done | by intros [? _]].
  - destruct (fs !! (a :: q)) as [[|c]|]; split; try done.
    + by intros [_ [? ?]].
    + intros _. split; [done | by exists c].
    + by intros [_ [? ?]].
Qed.

Lemma remove_lookup fs p q :
  (keep_on_error fs (os.remove fs p)).2 !! q
  = if bool_decide (q = p ∧ os.is_file fs q = true) then None else fs !! q.
Proof.
  case_bool_decide as H.
  - destruct H as [-> [Hne [c Hc]]%is_file_lookup].
    unfold os.remove, os.node_at. destruct p; [done|]. rewrite Hc. simpl.
    apply lookup_delete_eq.
  - unfold os.remove. destruct (os.node_at fs p) as [[|c]|] eqn:E; simpl; try done.
    destruct (decide (q = p)) as [->|Hqp]; [|by rewrite lookup_delete_ne].
    exfalso. apply H. split; [done|]. unfold os.is_file. by rewrite E.
Qed.

Lemma remove_is_file fs p q :
  os.is_file (keep_on_error fs (os.remove fs p)).2 q
  = os.is_file fs q && negb (bool_decide (q = p)).
Proof.
  destruct (decide (q = p)) as [->|Hqp].
  - rewrite bool_decide_true by done. rewrite andb_false_r.
    apply not_true_is_false. intros [Hne [c Hc]]%is_file_lookup.
    rewrite remove_lookup in Hc. case_bool_decide as H; [done|].
    apply H. split; [done|]. apply is_file_lookup. eauto.
  - rewrite bool_decide_false by done. rewrite andb_true_r.
    unfold os.is_file, os.node_at. destruct q; [done|].
    rewrite remove_lookup. by rewrite bool_decide_false by (by intros [??]).
Qed.

Lemma for_each_remove_fs l st :
  ∃ st', for_each l (λ src_file, try_except (os_remove src_file) (λ exc, mret tt)) st
         = (Ok tt, st')
         ∧ st_log st' = st_log st ++ (ERemove <$> l)
         ∧ ∀ q, st_fs st' !! q
                = if bool_decide (q ∈ l ∧ os.is_file (st_fs st) q = true)
                  then None else st_fs st !! q.
Proof.
  revert st. induction l as [|p l IH]; intros st.
  - exists st. split_and!; [done | by rewrite app_nil_r |].
    intros q. rewrite bool_decide_false; [done|].
    by intros [?%elem_of_nil _].
  - set (fs1 := (keep_on_error (st_fs st) (os.remove (st_fs st) p)).2).
    set (st1 := mkState fs1 (st_log st ++ [ERemove p])).
    assert (try_except (os_remove p) (λ exc, mret tt) st = (Ok tt, st1)) as Hstep.
    { unfold try_except, os_remove, fs_call, st1, fs1.
      destruct (os.remove (st_fs st) p); done. }
    destruct (IH st1) as (st' & Hrun & Hlog & Hfs).
    exists st'. split_and!.
    + cbn [for_each]. unfold mbind, M_bind. by rewrite Hstep.
    + rewrite Hlog. unfold st1. cbn [st_log]. by rewrite <- app_assoc.
    + intros q. rewrite Hfs. unfold st1. cbn [st_fs]. unfold fs1.
      rewrite remove_lookup, remove_is_file.
      destruct (decide (q = p)) as [->|Hqp].
      * rewrite (bool_decide_true (p = p)) by done. rewrite andb_false_r.
        rewrite (bool_decide_false (_ ∧ false = true)) by (by intros [??]).
        destruct (os.is_file (st_fs st) p) eqn:Hfile.
        -- rewrite !bool_decide_true; [done | | done].
           split; [apply list_elem_of_here | done].
        -- by rewrite !bool_decide_false by (by intros [??]).
      * rewrite (bool_decide_false (q = p)) by done. rewrite andb_true_r.
        rewrite (bool_decide_false (q = p ∧ _)) by (by intros [??]).
        rewrite (bool_decide_ext _ (q ∈ p :: l ∧ os.is_file (st_fs st) q = true));
          [done|].
        rewrite elem_of_cons. tauto.
Qed.

(** X8: with a non-positive number of workers [remove_files] raises
    [ValueError] and touches nothing.  Otherwise it never raises, attempts
    every listed path once, in order, and leaves the file system without
    exactly the listed paths that were files: listed directories, missing
    paths and every path not listed stay as they were. *)
Theorem remove_files_spec file_list max_workers st :
  (max_workers ≤ 0 →
   utils.remove_files file_list max_workers st = (Raise ValueError, st))
  ∧ (0 < max_workers →
     ∃ st', utils.remove_files file_list max_workers st = (Ok tt, st')
            ∧ st_log st' = st_log st ++ (ERemove <$> file_list)
            ∧ ∀ q, st_fs st' !! q
                   = if bool_decide (q ∈ file_list ∧ os.is_file (st_fs st) q = true)
                     then None else st_fs st !! q).
Proof.
  unfold utils.remove_files, ThreadPoolExecutor. split; intros Hmw.
  - by assert ((max_workers <=? 0) = true) as -> by lia.
  - assert ((max_workers <=? 0) = false) as -> by lia.
    destruct (for_each_remove_fs file_list st) as (st' & Hrun & Hlog & Hfs).
    exists st'. split_and!; [|done|done].
    unfold mbind, M_bind, mret, M_ret. exact Hrun.
Qed.

Lemma remove_files_spec_witness :
  utils.remove_files [["Y"; "dog.jpg"]; ["X"]; ["Y"; "gone.jpg"]]%string 0
                     (mkState sample_fs [])
    = (Raise ValueError, mkState sample_fs [])
  ∧ ∃ st', utils.remove_files [["Y"; "dog.jpg"]; ["X"]; ["Y"; "gone.jpg"]]%string 8
                              (mkState sample_fs [])
           = (Ok tt, st')
           ∧ st_log st'
             = [] ++ (ERemove <$> [["Y"; "dog.jpg"]; ["X"]; ["Y"; "gone.jpg"]]%string)
           ∧ ∀ q, st_fs st' !! q
                  = if bool_decide
                         (q ∈ [["Y"; "dog.jpg"]; ["X"]; ["Y"; "gone.jpg"]]%string
                          ∧ os.is_file sample_fs q = true)
                    then None else sample_fs !! q.
Proof.
  split.
  - apply remove_files_spec. lia.
  - apply (proj2 (remove_files_spec _ 8 (mkState sample_fs []))). lia.
Defined.

(** ** Moving files *)

(** A rename whose source is not a directory either fails or re-binds
    one file. *)
Lemma rename_file fs src dst fs' :
  fs !! src ≠ Some Dir →
  os.rename fs src dst = Ok fs' →
  ∃ c, fs !! src = Some (File c) ∧ fs !! dst ≠ Some Dir
       ∧ fs' = <[dst := File c]> (delete src fs).
Proof.
  intros Hsrc. unfold os.rename.
  destruct src as [|a src]; [by destruct dst|].
  destruct dst as [|b dst]; [done|].
  destruct (fs !! (a :: src)) as [[|c]|] eqn:E; [done| |done].
  destruct (fs !! (b :: dst)) as [[|c']|] eqn:E'; [done| |];
    intros [= <-]; exists c; by rewrite ?E'.
Qed.

Lemma rebind_same_dirs fs src dst c :
  fs !! src = Some (File c) → fs !! dst ≠ Some Dir →
  same_dirs fs (<[dst := File c]> (delete src fs)).
Proof.
  intros Hsrc Hdst p.
  destruct (decide (p = dst)) as [->|Hpd].
  - rewrite lookup_insert_eq. split; [done | by intros [=]].
  - rewrite lookup_insert_ne by done.
    destruct (decide (p = src)) as [->|Hps].
    + rewrite lookup_delete_eq, Hsrc. split; by intros [=].
    + by rewrite lookup_delete_ne.
Qed.

Lemma rebind_entries_kept d fs src dst c :
  pathlib.parent src ≠ d →
  pathlib.parent dst ≠ d ∨ fs !! dst = None →
  entries_kept d fs (<[dst := File c]> (delete src fs)).
Proof.
  intros Hsrc Hdst p n Hp Hn.
  assert (p ≠ src) by (by intros ->).
  assert (p ≠ dst) by (intros ->; destruct Hdst; [done | congruence]).
  by rewrite lookup_insert_ne, lookup_delete_ne.
Qed.

Lemma same_dirs_trans fs1 fs2 fs3 :
  same_dirs fs1 fs2 → same_dirs fs2 fs3 → same_dirs fs1 fs3.
Proof. intros H12 H23 p. rewrite (H12 p). apply H23. Qed.

Lemma entries_kept_trans d fs1 fs2 fs3 :
  entries_kept d fs1 fs2 → entries_kept d fs2 fs3 → entries_kept d fs1 fs3.
Proof. intros H12 H23 p n Hp Hn. by eapply H23, H12. Qed.

Lemma same_dirs_is_dir fs fs' d : same_dirs fs fs' → os.is_dir fs' d = os.is_dir fs d.
Proof.
  intros Hsame. unfold os.is_dir, os.node_at. destruct d as [|a d]; [done|].
  specialize (Hsame (a :: d)).
  destruct (fs !! (a :: d)) as [[|c]|], (fs' !! (a :: d)) as [[|c']|];
    try done; destruct Hsame as [H1 H2]; (by specialize (H1 eq_refl))
                                          || (by specialize (H2 eq_refl)).
Qed.

(** [shutil.move] of something that is not a directory, into a directory
    that is not its own. *)
Lemma shutil_move_file fs src dst_dir :
  fs !! src ≠ Some Dir → pathlib.parent src ≠ dst_dir →
  os.is_dir fs dst_dir = true →
  match shutil.move fs src dst_dir with
  | Raise _ => True
  | Ok (fs', real_dst) =>
      same_dirs fs fs' ∧ entries_kept dst_dir fs fs'
      ∧ pathlib.parent real_dst = dst_dir
      ∧ fs !! real_dst = None
      ∧ ∃ c, fs !! src = Some (File c) ∧ fs' = <[real_dst := File c]> (delete src fs)
  end.
Proof.
  intros Hsrc Hparent Hdir. unfold shutil.move. rewrite Hdir.
  case_bool_decide as Heq.
  - subst dst_dir. destruct (os.rename fs src src) as [fs'|e] eqn:E; [|done].
    exfalso. unfold os.rename in E.
    destruct src as [|a src]; [done|].
    unfold os.is_dir, os.node_at in Hdir.
    destruct (fs !! (a :: src)) as [[|c]|]; done.
  - set (real_dst := pathlib.joinpath dst_dir (pathlib.name src)).
    destruct (os.exists_ fs real_dst) eqn:Hex; [done|].
    destruct (os.rename fs src real_dst) as [fs'|e] eqn:E; [|done].
    apply rename_file in E as (c & Hc & Hd & ->); [|done].
    assert (fs !! real_dst = None) as Hnone.
    { unfold os.exists_, os.node_at in Hex.
      destruct real_dst; [done|]. by destruct (fs !! (_ :: _)). }
    split_and!; [by apply rebind_same_dirs | | | done | by exists c].
    + apply rebind_entries_kept; [done | by right].
    + unfold real_dst, pathlib.joinpath in *. case_bool_decide.
      * exfalso. unfold os.exists_, os.is_dir in *.
        by destruct (os.node_at fs dst_dir) as [[|?]|].
      * unfold pathlib.parent. apply removelast_last.
Qed.

Lemma move_file_to_dir_unfold r src dst_dir st :
  utils.move_file_to_dir r src dst_dir false st
  = if os.is_file (st_fs st) (pathlib.joinpath dst_dir (pathlib.name src)) then
      match pathlib.with_stem src (pathlib.stem src +:+ str r) with
      | None => (Raise ValueError, st)
      | Some target =>
          match os.rename (st_fs st) src target with
          | Ok fs1 =>
              shutil_move target dst_dir
                (mkState fs1 (st_log st ++ [ERename src target]))
          | Raise e =>
              (Raise e, mkState (st_fs st) (st_log st ++ [ERename src target]))
          end
      end
    else shutil_move src dst_dir st.
Proof.
  unfold utils.move_file_to_dir. unfold mbind at 1, M_bind at 1, get_fs at 1.
  destruct (os.is_file (st_fs st) _); cbn [andb negb].
  - destruct (pathlib.with_stem src _) as [target|]; [|done].
    unfold path_rename, fs_call. unfold mbind, M_bind, mret, M_ret.
    cbn [st_fs st_log]. by destruct (os.rename (st_fs st) src target).
  - unfold mbind, M_bind, mret, M_ret. by destruct st.
Qed.

Lemma shutil_move_unfold src dst st :
  shutil_move src dst st
  = match shutil.move (st_fs st) src dst with
    | Ok (fs', real_dst) => (Ok real_dst, mkState fs' (st_log st ++ [EMove src dst]))
    | Raise e => (Raise e, mkState (st_fs st) (st_log st ++ [EMove src dst]))
    end.
Proof.
  unfold shutil_move, fs_call.
  by destruct (shutil.move (st_fs st) src dst) as [[??]|].
Qed.

Lemma move_file_to_dir_effect r src dst_dir st :
  st_fs st !! src ≠ Some Dir → pathlib.parent src ≠ dst_dir →
  os.is_dir (st_fs st) dst_dir = true →
  let result := utils.move_file_to_dir r src dst_dir false st in
  same_dirs (st_fs st) (st_fs result.2)
  ∧ entries_kept dst_dir (st_fs st) (st_fs result.2)
  ∧ ∀ p', result.1 = Ok p' →
          pathlib.parent p' = dst_dir
          ∧ st_fs st !! p' = None
          ∧ st_fs result.2 !! src = None
          ∧ ∃ c, st_fs st !! src = Some (File c)
                 ∧ st_fs result.2 !! p' = Some (File c).
Proof.
  intros Hsrc Hparent Hdir result.
  assert (same_dirs (st_fs st) (st_fs st) ∧ entries_kept dst_dir (st_fs st) (st_fs st))
    as [Hrefl1 Hrefl2] by (split; [done | by intros ???]).
  destruct result as [res st'] eqn:Hrun. subst result.
  rewrite move_file_to_dir_unfold in Hrun. cbn [fst snd].
  set (fs := st_fs st) in *.
  destruct (os.is_file fs _) eqn:Hcollide.
  - (* the source is renamed first *)
    unfold pathlib.with_stem, pathlib.with_name in Hrun.
    case_bool_decide as Hname.
    { injection Hrun as <- <-. split_and!; done. }
    set (target := pathlib.parent src ++ [_]) in Hrun.
    assert (pathlib.parent target = pathlib.parent src) as Htarget
      by apply removelast_last.
    destruct (os.rename fs src target) as [fs1'|e] eqn:E.
    2: { injection Hrun as <- <-. split_and!; done. }
    apply rename_file in E as (c & Hc & Hd & ->); [|done].
    set (fs1 := <[target := File c]> (delete src fs)) in *.
    assert (same_dirs fs fs1) as Hsame1 by by apply rebind_same_dirs.
    assert (entries_kept dst_dir fs fs1) as Hkept1.
    { apply rebind_entries_kept; [done | left; congruence]. }
    assert (fs1 !! target = Some (File c)) as Ht by apply lookup_insert_eq.
    rewrite shutil_move_unfold in Hrun. cbn [st_fs st_log] in Hrun.
    pose proof (shutil_move_file fs1 target dst_dir) as Hmove.
    destruct (shutil.move fs1 target dst_dir) as [[fs2 real_dst]|e].
    2: { injection Hrun as <- <-. split_and!; done. }
    destruct Hmove as (Hsame2 & Hkept2 & Hreal & Hnone & c' & Hc' & ->);
      [by rewrite Ht | congruence | by rewrite (same_dirs_is_dir fs) | ].
    assert (c' = c) as -> by congruence.
    injection Hrun as <- <-. cbn [st_fs]. split_and!.
    + by eapply same_dirs_trans.
    + by eapply entries_kept_trans.
    + intros p' [= <-].
      assert (real_dst ≠ src) by (intros ->; congruence).
      assert (real_dst ≠ target) by (intros ->; congruence).
      split_and!; [done | | | ].
      * unfold fs1 in Hnone. rewrite lookup_insert_ne in Hnone by done.
        rewrite lookup_delete_ne in Hnone by done. done.
      * rewrite lookup_insert_ne by done.
        destruct (decide (src = target)) as [<-|Hst];
          [apply lookup_delete_eq|].
        rewrite lookup_delete_ne by done. unfold fs1.
        rewrite lookup_insert_ne by done. apply lookup_delete_eq.
      * exists c. split; [done | apply lookup_insert_eq].
  - (* no collision: the source is moved as it is *)
    rewrite shutil_move_unfold in Hrun. fold fs in Hrun.
    pose proof (shutil_move_file fs src dst_dir Hsrc Hparent Hdir) as Hmove.
    destruct (shutil.move fs src dst_dir) as [[fs2 real_dst]|e].
    2: { injection Hrun as <- <-. split_and!; done. }
    destruct Hmove as (Hsame2 & Hkept2 & Hreal & Hnone & c & Hc & ->).
    injection Hrun as <- <-. cbn [st_fs]. split_and!; [done | done |].
    intros p' [= <-].
    assert (real_dst ≠ src) by (intros ->; congruence).
    split_and!; [done | done | | ].
    + rewrite lookup_insert_ne by done. apply lookup_delete_eq.
    + exists c. split; [done | apply lookup_insert_eq].
Qed.

Lemma move_file_to_dir_log r src dst_dir st :
  ∃ evs, st_log (utils.move_file_to_dir r src dst_dir false st).2 = st_log st ++ evs
         ∧ Forall is_move_event evs.
Proof.
  rewrite move_file_to_dir_unfold.
  destruct (os.is_file (st_fs st) _).
  - destruct (pathlib.with_stem src _) as [target|].
    + destruct (os.rename (st_fs st) src target) as [fs1|e].
      * rewrite shutil_move_unfold. cbn [st_fs st_log].
        exists [ERename src target; EMove target dst_dir].
        split; [|by repeat constructor].
        destruct (shutil.move fs1 target dst_dir) as [[??]|]; cbn [snd st_log];
          by rewrite <- app_assoc.
      * exists [ERename src target]. split; [done | by repeat constructor].
    + exists []. split; [by rewrite app_nil_r | constructor].
  - rewrite shutil_move_unfold. exists [EMove src dst_dir].
    split; [|by repeat constructor].
    by destruct (shutil.move (st_fs st) src dst_dir) as [[??]|].
Qed.

(** One task of [move_files]: what the move raises is caught. *)
Lemma move_task_unfold randint src dst_dir st :
  try_except (utils.move_file_to_dir (randint src) src dst_dir false ;; mret tt)
             (λ exc, mret tt) st
  = (Ok tt, (utils.move_file_to_dir (randint src) src dst_dir false st).2).
Proof.
  unfold try_except, mbind, M_bind, mret, M_ret.
  by destruct (utils.move_file_to_dir (randint src) src dst_dir false st) as [[?|?] ?].
Qed.

Lemma move_loop_log randint l dst_dir st :
  ∃ st' evs,
    for_each l (λ src_file,
      try_except
        (utils.move_file_to_dir (randint src_file) src_file dst_dir false ;; mret tt)
        (λ exc, mret tt)) st = (Ok tt, st')
    ∧ st_log st' = st_log st ++ evs ∧ Forall is_move_event evs.
Proof.
  revert st. induction l as [|src l IH]; intros st.
  - exists st, []. split_and!; [done | by rewrite app_nil_r | constructor].
  - cbn [for_each]. unfold mbind at 1, M_bind at 1. rewrite move_task_unfold.
    destruct (move_file_to_dir_log (randint src) src dst_dir st) as (evs1 & Hlog1 & Hevs1).
    destruct (IH (utils.move_file_to_dir (randint src) src dst_dir false st).2)
      as (st' & evs2 & Hrun & Hlog2 & Hevs2).
    exists st', (evs1 ++ evs2). split_and!; [done | |by apply Forall_app].
    by rewrite Hlog2, Hlog1, <- app_assoc.
Qed.

Lemma move_loop_effect randint l dst_dir st :
  Forall (λ src, st_fs st !! src ≠ Some Dir ∧ pathlib.parent src ≠ dst_dir) l →
  os.is_dir (st_fs st) dst_dir = true →
  ∃ st',
    for_each l (λ src_file,
      try_except
        (utils.move_file_to_dir (randint src_file) src_file dst_dir false ;; mret tt)
        (λ exc, mret tt)) st = (Ok tt, st')
    ∧ same_dirs (st_fs st) (st_fs st')
    ∧ entries_kept dst_dir (st_fs st) (st_fs st').
Proof.
  revert st. induction l as [|src l IH]; intros st Hl Hdir.
  - exists st. split_and!; [done | done | by intros ???].
  - inversion_clear Hl as [|?? [Hsrc Hparent] Hl'].
    cbn [for_each]. unfold mbind at 1, M_bind at 1. rewrite move_task_unfold.
    destruct (move_file_to_dir_effect (randint src) src dst_dir st Hsrc Hparent Hdir)
      as (Hsame1 & Hkept1 & _).
    set (st1 := (utils.move_file_to_dir (randint src) src dst_dir false st).2) in *.
    destruct (IH st1) as (st' & Hrun & Hsame2 & Hkept2).
    + eapply Forall_impl; [exact Hl'|]. intros p [Hp ?]. split; [|done].
      intros Hp'. apply Hp. by apply Hsame1.
    + by rewrite (same_dirs_is_dir (st_fs st)).
    + exists st'. split_and!; [done | by eapply same_dirs_trans
                               | by eapply entries_kept_trans].
Qed.

(** X9: moving something that is not a directory into a directory other
    than its own creates and removes no directory and leaves every entry
    already in the destination directory as it was; when the move
    succeeds, the returned path lies in the destination directory, was
    free before, holds the content the source had, and the source path is
    gone. *)
Theorem move_file_to_dir_safe r src dst_dir st :
  st_fs st !! src ≠ Some Dir → pathlib.parent src ≠ dst_dir →
  os.is_dir (st_fs st) dst_dir = true →
  let result := utils.move_file_to_dir r src dst_dir false st in
  same_dirs (st_fs st) (st_fs result.2)
  ∧ entries_kept dst_dir (st_fs st) (st_fs result.2)
  ∧ ∀ p', result.1 = Ok p' →
          pathlib.parent p' = dst_dir
          ∧ st_fs st !! p' = None
          ∧ st_fs result.2 !! src = None
          ∧ ∃ c, st_fs st !! src = Some (File c)
                 ∧ st_fs result.2 !! p' = Some (File c).
Proof. apply move_file_to_dir_effect. Qed.

(** X10: with a non-positive number of workers [move_files] raises
    [ValueError] and touches nothing.  Otherwise it never raises, whatever
    happens to single files; and when no listed source is a directory or
    lies in the destination directory, the batch creates and removes no
    directory and leaves every entry already in the destination directory
    as it was. *)
Theorem move_files_spec randint file_list dst_dir max_workers st :
  (max_workers ≤ 0 →
   utils.move_files randint file_list dst_dir max_workers st = (Raise ValueError, st))
  ∧ (0 < max_workers →
     ∃ st', utils.move_files randint file_list dst_dir max_workers st = (Ok tt, st')
            ∧ (Forall (λ src, st_fs st !! src ≠ Some Dir
                              ∧ pathlib.parent src ≠ dst_dir) file_list →
               os.is_dir (st_fs st) dst_dir = true →
               same_dirs (st_fs st) (st_fs st')
               ∧ entries_kept dst_dir (st_fs st) (st_fs st'))).
Proof.
  unfold utils.move_files, ThreadPoolExecutor. split; intros Hmw.
  - by assert ((max_workers <=? 0) = true) as -> by lia.
  - assert ((max_workers <=? 0) = false) as -> by lia.
    unfold mbind at 1, M_bind at 1, mret at 1, M_ret at 1.
    destruct (move_loop_log randint file_list dst_dir st) as (st' & evs & Hrun & _).
    exists st'. split; [done|]. intros Hl Hdir.
    destruct (move_loop_effect randint file_list dst_dir st Hl Hdir)
      as (st'' & Hrun' & Hsame & Hkept).
    rewrite Hrun in Hrun'. by injection Hrun' as <-.
Qed.

(** ** The cleanup *)

Lemma rmtree_lookup (fs : FS) d q :
  filter (λ kv : Path * Node, ¬ d `prefix_of` kv.1) fs !! q
  = if bool_decide (d `prefix_of` q) then None else fs !! q.
Proof.
  rewrite map_lookup_filter. destruct (fs !! q) as [n|]; simpl.
  - case_bool_decide.
    + by rewrite option_guard_False by (by intros H'; apply H').
    + by rewrite option_guard_True.
  - by case_bool_decide.
Qed.

Lemma shutil_rmtree_ok d st st' :
  shutil_rmtree d st = (Ok tt, st') →
  d ≠ [] ∧ os.is_dir (st_fs st) d = true
  ∧ st_log st' = st_log st ++ [ERmtree d]
  ∧ ∀ q, st_fs st' !! q
         = if bool_decide (d `prefix_of` q) then None else st_fs st !! q.
Proof.
  unfold shutil_rmtree, fs_call, shutil.rmtree.
  destruct (os.is_dir (st_fs st) d) eqn:Hdir; [|done].
  destruct d as [|a d]; [done|]. intros [= <-]. cbn [st_fs st_log].
  split_and!; [done | done | done |]. intros q. apply rmtree_lookup.
Qed.

Lemma rmtree_loop_ok l st st' :
  for_each l shutil_rmtree st = (Ok tt, st') →
  st_log st' = st_log st ++ (ERmtree <$> l)
  ∧ Forall (λ d, d ≠ []) l
  ∧ ∀ q, st_fs st' !! q
         = if bool_decide (Exists (λ d, d `prefix_of` q) l)
           then None else st_fs st !! q.
Proof.
  revert st. induction l as [|d l IH]; intros st.
  - intros [= <-]. split_and!; [by rewrite app_nil_r | constructor |].
    intros q. by rewrite bool_decide_false by (by intros ?%Exists_nil).
  - cbn [for_each]. unfold mbind at 1, M_bind at 1.
    destruct (shutil_rmtree d st) as [[[]|e] st1] eqn:Hstep; [|done].
    apply shutil_rmtree_ok in Hstep as (Hd & _ & Hlog1 & Hfs1).
    intros (Hlog & Hne & Hfs)%IH. split_and!.
    + rewrite Hlog, Hlog1. by rewrite <- app_assoc.
    + by constructor.
    + intros q. rewrite Hfs, Hfs1.
      destruct (decide (d `prefix_of` q)) as [Hpre | Hpre].
      * rewrite (bool_decide_true (Exists _ (d :: l))) by by apply Exists_cons_hd.
        rewrite (bool_decide_true (d `prefix_of` q)) by done. by case_bool_decide.
      * rewrite (bool_decide_false (d `prefix_of` q)) by done.
        rewrite (bool_decide_ext _ (Exists (λ d0, d0 `prefix_of` q) (d :: l)));
          [done|].
        rewrite Exists_cons. tauto.
Qed.

(** ** The pipeline, phase by phase *)

Lemma bind_ok {A B} (m : M A) (k : A → M B) st b st' :
  (m ≫= k) st = (Ok b, st') →
  ∃ a st1, m st = (Ok a, st1) ∧ k a st1 = (Ok b, st').
Proof.
  unfold mbind, M_bind. destruct (m st) as [[a|e] st1]; [|done].
  intros H. by exists a, st1.
Qed.

Lemma scan_directories_ok w dir_list mw st images_id st' :
  scan_directories w dir_list mw st = (Ok images_id, st') →
  0 < mw
  ∧ st' = mkState (st_fs st) (st_log st ++ (EScan <$> dir_list))
  ∧ images_id = merged_index w (st_fs st) dir_list mw.
Proof.
  unfold scan_directories, ThreadPoolExecutor.
  destruct (mw <=? 0) eqn:Hmw; [done|].
  unfold mbind at 1, M_bind at 1, mret at 1, M_ret at 1.
  assert (∀ l st0, for_each l (λ directory, log (EScan directory)) st0
                   = (Ok tt, mkState (st_fs st0) (st_log st0 ++ (EScan <$> l))))
    as Hlog.
  { induction l as [|d l IH]; intros st0.
    - destruct st0. simpl. by rewrite app_nil_r.
    - cbn [for_each]. unfold mbind, M_bind, log at 1. rewrite IH.
      cbn [st_fs st_log]. by rewrite <- app_assoc. }
  unfold mbind at 1, M_bind at 1. rewrite Hlog.
  unfold mbind, M_bind, get_fs, mret, M_ret. cbn [st_fs].
  intros [= <- <-]. split_and!; [lia | done | done].
Qed.

Lemma move_files_run randint file_list dst_dir max_workers st :
  0 < max_workers →
  utils.move_files randint file_list dst_dir max_workers st
  = for_each file_list (λ src_file,
      try_except
        (utils.move_file_to_dir (randint src_file) src_file dst_dir false ;; mret tt)
        (λ exc, mret tt)) st.
Proof.
  intros Hmw. unfold utils.move_files, ThreadPoolExecutor.
  by assert ((max_workers <=? 0) = false) as -> by lia.
Qed.

Lemma remove_files_run file_list max_workers st :
  0 < max_workers →
  utils.remove_files file_list max_workers st
  = for_each file_list (λ src_file,
      try_except (os_remove src_file) (λ exc, mret tt)) st.
Proof.
  intros Hmw. unfold utils.remove_files, ThreadPoolExecutor.
  by assert ((max_workers <=? 0) = false) as -> by lia.
Qed.

Lemma submit_and_forget_ok task st st' :
  submit_and_forget task st = (Ok tt, st') → st' = (task st).2.
Proof.
  unfold submit_and_forget, try_except, mret, M_ret.
  destruct (task st) as [[[]|e] st1]; by intros [= <-].
Qed.

Lemma pipeline_ok w ns st c st' :
  pipeline w ns st = (Ok c, st') →
  ∃ fs1 mk files_to_move duplicate_files st2 st3,
    c = 0 ∧ 0 < jobs ns
    ∧ ((os.exists_ (st_fs st) (resolve_output ns) = true
        ∧ fs1 = st_fs st ∧ mk = [])
       ∨ (os.exists_ (st_fs st) (resolve_output ns) = false
          ∧ os.mkdir_parents (st_fs st) (resolve_output ns) = Ok fs1
          ∧ mk = [EMkdir (resolve_output ns)]))
    ∧ plan (resolve_output ns)
           (merged_index w fs1 (resolve_dir_list ns) (jobs ns))
      = Ok (files_to_move, duplicate_files)
    ∧ utils.move_files (randint w) files_to_move (resolve_output ns) (jobs ns)
        (mkState fs1 ((st_log st ++ mk) ++ (EScan <$> resolve_dir_list ns)))
      = (Ok tt, st2)
    ∧ utils.remove_files duplicate_files (jobs ns) st2 = (Ok tt, st3)
    ∧ for_each (tail (resolve_dir_list ns)) shutil_rmtree st3 = (Ok tt, st').
Proof.
  unfold pipeline. intros (fs & st0 & Hget & H)%bind_ok.
  unfold get_fs in Hget. injection Hget as <- <-.
  apply bind_ok in H as ([] & st1 & Hmk & H).
  apply bind_ok in H as (images_id & st1' & Hscan & H).
  apply scan_directories_ok in Hscan as (Hjobs & -> & ->).
  apply bind_ok in H as ([files_to_move duplicate_files] & st1'' & Hplan & H).
  apply bind_ok in H as ([] & st1''' & Hpool & H).
  apply bind_ok in H as ([] & st2 & Hmove & H).
  apply bind_ok in H as ([] & st2' & Hpool' & H).
  apply bind_ok in H as ([] & st3 & Hremove & H).
  apply bind_ok in H as ([] & st4 & Hclean & H).
  unfold mret, M_ret in H. injection H as <- <-.
  unfold ThreadPoolExecutor in Hpool, Hpool'.
  assert ((jobs ns <=? 0) = false) as Hj by lia. rewrite Hj in Hpool, Hpool'.
  unfold mret, M_ret in Hpool, Hpool'.
  injection Hpool as <-. injection Hpool' as <-.
  unfold of_res in Hplan.
  destruct (plan _ _) as [[m d]|e] eqn:Eplan; [|done].
  unfold mret, M_ret in Hplan. injection Hplan as <- <- <-.
  apply submit_and_forget_ok in Hmove. apply submit_and_forget_ok in Hremove.
  destruct (move_loop_log (randint w) m (resolve_output ns)
              (mkState (st_fs st1) (st_log st1 ++ (EScan <$> resolve_dir_list ns))))
    as (st2' & evs & Hmv & _).
  rewrite <- (move_files_run _ _ _ (jobs ns)) in Hmv by done.
  rewrite Hmv in Hmove. cbn [snd] in Hmove. subst st2'.
  destruct (for_each_remove_fs d st2) as (st3' & Hrm & _).
  rewrite <- (remove_files_run _ (jobs ns)) in Hrm by done.
  rewrite Hrm in Hremove. cbn [snd] in Hremove. subst st3'.
  destruct (os.exists_ (st_fs st) (resolve_output ns)) eqn:Hex.
  - unfold mret, M_ret in Hmk. injection Hmk as <-.
    exists (st_fs st), [], m, d, st2, st3.
    rewrite app_nil_r. split_and!; try done. left. done.
  - unfold path_mkdir_parents, fs_call in Hmk.
    destruct (os.mkdir_parents (st_fs st) (resolve_output ns)) as [fs1|e] eqn:Emk;
      [|done].
    cbn [keep_on_error] in Hmk. injection Hmk as <-. cbn [st_fs st_log] in *.
    exists fs1, [EMkdir (resolve_output ns)], m, d, st2, st3.
    split_and!; try done. right. done.
Qed.

(** X11: a run whose arguments are accepted and which returns has issued
    its file-system calls in this order: the creation of the output
    directory if it was missing; one scan per directory of the list, in
    list order; renames and moves only; one removal per duplicate of the
    plan made from the file system as it was after that creation, in plan
    order; one recursive removal per directory of the list but the first,
    in list order. *)
Theorem run_phases w argc argv fs ns c st' :
  3 ≤ argc →
  parse_args w (tail argv) = Some ns →
  forallb (os.is_dir fs) (main_directory ns :: directories ns) = true →
  run w argc argv fs = (Ok c, st') →
  ∃ fs1 mk moves files_to_move duplicate_files,
    output_made fs (resolve_output ns) fs1 mk
    ∧ plan (resolve_output ns)
           (merged_index w fs1 (resolve_dir_list ns) (jobs ns))
      = Ok (files_to_move, duplicate_files)
    ∧ Forall is_move_event moves
    ∧ st_log st'
      = mk ++ (EScan <$> resolve_dir_list ns) ++ moves
           ++ (ERemove <$> duplicate_files)
           ++ (ERmtree <$> tail (resolve_dir_list ns)).
Proof.
  intros Hargc Hparse Hdirs Hrun.
  rewrite (run_validated _ _ _ _ _ Hargc Hparse Hdirs) in Hrun.
  apply pipeline_ok in Hrun
    as (fs1 & mk & m & d & st2 & st3 & -> & Hjobs & Hmk & Hplan & Hmove & Hrm & Hclean).
  cbn [st_fs st_log] in *.
  rewrite move_files_run in Hmove by done.
  rewrite remove_files_run in Hrm by done.
  destruct (move_loop_log (randint w) m (resolve_output ns)
              (mkState fs1 (([] ++ mk) ++ (EScan <$> resolve_dir_list ns))))
    as (st2' & moves & Hmove' & Hlog2 & Hmoves).
  rewrite Hmove in Hmove'. injection Hmove' as <-.
  destruct (for_each_remove_fs d st2) as (st3' & Hrm' & Hlog3 & _).
  rewrite Hrm in Hrm'. injection Hrm' as <-.
  apply rmtree_loop_ok in Hclean as (Hlog4 & _ & _).
  exists fs1, mk, moves, m, d. split_and!; [|done|done|].
  - unfold output_made. by destruct Hmk as [(-> & -> & ->) | (-> & Hmkdir & ->)].
  - rewrite Hlog4, Hlog3, Hlog2. cbn [st_log]. by rewrite <- !app_assoc.
Qed.

Lemma run_phases_witness :
  ∃ fs1 mk moves files_to_move duplicate_files,
    output_made sample_fs (resolve_output (sample_args (Some ["Z"%string]))) fs1 mk
    ∧ plan (resolve_output (sample_args (Some ["Z"%string])))
           (merged_index (sample_world (Some ["Z"%string])) fs1
              (resolve_dir_list (sample_args (Some ["Z"%string])))
              (jobs (sample_args (Some ["Z"%string]))))
      = Ok (files_to_move, duplicate_files)
    ∧ Forall is_move_event moves
    ∧ st_log (run (sample_world (Some ["Z"%string])) 5
                  ["prog"; "X"; "Y"; "-o"; "Z"]%string sample_fs).2
      = mk ++ (EScan <$> resolve_dir_list (sample_args (Some ["Z"%string]))) ++ moves
           ++ (ERemove <$> duplicate_files)
           ++ (ERmtree <$> tail (resolve_dir_list (sample_args (Some ["Z"%string])))).
Proof.
  apply (run_phases (sample_world (Some ["Z"%string])) 5
           ["prog"; "X"; "Y"; "-o"; "Z"]%string sample_fs
           (sample_args (Some ["Z"%string])) 0);
    [lia | reflexivity | reflexivity | by vm_compute].
Defined.

Lemma signed_is_file fs s p : signed fs s p → p ≠ [] ∧ fs !! p = Some (File (Some s)).
Proof.
  unfold signed, utils.get_image_signature, os.node_at.
  destruct p as [|a p]; [done|].
  destruct (fs !! (a :: p)) as [[|[h|]]|]; try done. by intros [= ->].
Qed.

Lemma make_dirs_dir fs pre rest fs' :
  os.make_dirs fs pre rest = Ok fs' → rest ≠ [] → fs' !! (pre ++ rest) = Some Dir.
Proof.
  revert fs pre. induction rest as [|c rest IH]; intros fs pre; [done|].
  intros Hmk _. cbn [os.make_dirs] in Hmk.
  replace (pre ++ c :: rest) with ((pre ++ [c]) ++ rest) by by rewrite <- app_assoc.
  destruct (fs !! (pre ++ [c])) as [[|content]|] eqn:E.
  - destruct rest as [|c' rest]; [done|]. by apply (IH fs).
  - by destruct rest.
  - destruct rest as [|c' rest].
    + cbn [os.make_dirs] in Hmk. injection Hmk as <-.
      rewrite app_nil_r. apply lookup_insert_eq.
    + by apply (IH (<[pre ++ [c] := Dir]> fs)).
Qed.

Lemma mkdir_parents_dir fs p fs' :
  os.mkdir_parents fs p = Ok fs' → os.is_dir fs' p = true.
Proof.
  unfold os.mkdir_parents. destruct p as [|a p]; [done|].
  intros Hmk. apply make_dirs_dir in Hmk; [|done].
  unfold os.is_dir, os.node_at. simpl in Hmk. by rewrite Hmk.
Qed.

Lemma is_dir_lookup fs fs' q :
  (q ≠ [] → fs' !! q = fs !! q) → os.is_dir fs' q = os.is_dir fs q.
Proof.
  unfold os.is_dir, os.node_at. destruct q as [|a q]; [done|].
  intros H. by rewrite H.
Qed.

(** X12: when a run whose arguments are accepted returns, every
    directory of the list but the first is gone, with everything that was
    below it. *)
Theorem run_removes_listed w argc argv fs ns c st' :
  3 ≤ argc →
  parse_args w (tail argv) = Some ns →
  forallb (os.is_dir fs) (main_directory ns :: directories ns) = true →
  run w argc argv fs = (Ok c, st') →
  ∀ d q, d ∈ tail (resolve_dir_list ns) → d `prefix_of` q →
         os.exists_ (st_fs st') q = false.
Proof.
  intros Hargc Hparse Hdirs Hrun d q Hd Hpre.
  rewrite (run_validated _ _ _ _ _ Hargc Hparse Hdirs) in Hrun.
  apply pipeline_ok in Hrun
    as (fs1 & mk & m & dups & st2 & st3 & _ & _ & _ & _ & _ & _ & Hclean).
  apply rmtree_loop_ok in Hclean as (_ & Hne & Hfs).
  rewrite Forall_forall in Hne. specialize (Hne d Hd).
  unfold os.exists_, os.node_at. destruct q as [|a q].
  - by apply prefix_nil_inv in Hpre.
  - rewrite Hfs. rewrite bool_decide_true; [done|].
    apply Exists_exists. by exists d.
Qed.

Lemma run_removes_listed_witness :
  os.exists_ (st_fs (run (sample_world (Some ["Z"%string])) 5
                        ["prog"; "X"; "Y"; "-o"; "Z"]%string sample_fs).2)
             ["Y"; "cat_dup.jpg"]%string
  = false.
Proof.
  apply (run_removes_listed (sample_world (Some ["Z"%string])) 5
           ["prog"; "X"; "Y"; "-o"; "Z"]%string sample_fs
           (sample_args (Some ["Z"%string])) 0) with (d := ["Y"%string]);
    [lia | reflexivity | reflexivity | by vm_compute | | ].
  - apply list_elem_of_further, list_elem_of_here.
  - by exists ["cat_dup.jpg"%string].
Defined.

(** X13: the output directory is still a directory when the run returns,
    provided it was not a plain file to begin with and no directory of the
    list but the first is the output directory or one of its ancestors. *)
Theorem run_keeps_output w argc argv fs ns c st' :
  3 ≤ argc →
  parse_args w (tail argv) = Some ns →
  forallb (os.is_dir fs) (main_directory ns :: directories ns) = true →
  os.is_file fs (resolve_output ns) = false →
  Forall (λ d, ¬ d `prefix_of` resolve_output ns) (tail (resolve_dir_list ns)) →
  run w argc argv fs = (Ok c, st') →
  os.is_dir (st_fs st') (resolve_output ns) = true.
Proof.
  intros Hargc Hparse Hdirs Hfile Hpre Hrun.
  rewrite (run_validated _ _ _ _ _ Hargc Hparse Hdirs) in Hrun.
  apply pipeline_ok in Hrun
    as (fs1 & mk & m & dups & st2 & st3 & _ & Hjobs & Hmk & Hplan & Hmove & Hrm & Hclean).
  cbn [st_fs st_log] in *. set (out := resolve_output ns) in *.
  (* after the output directory has been created *)
  assert (os.is_dir fs1 out = true) as Hdir1.
  { destruct Hmk as [(Hex & -> & _) | (_ & Hmkdir & _)].
    - unfold os.exists_, os.is_file, os.is_dir in *.
      by destruct (os.node_at fs out) as [[|?]|].
    - by eapply mkdir_parents_dir. }
  (* the move phase *)
  rewrite move_files_run in Hmove by done.
  destruct (plan_merged_index_ok w fs1 (resolve_dir_list ns) (jobs ns) out)
    as (m' & d' & Hplan' & Hout & Hsigned).
  rewrite Hplan in Hplan'. injection Hplan' as <- <-.
  destruct (move_loop_effect (randint w) m out
              (mkState fs1 (([] ++ mk) ++ (EScan <$> resolve_dir_list ns))))
    as (st2' & Hmove' & Hsame & _); [| done |].
  { apply Forall_forall. intros p Hp. split; [|by apply Hout].
    destruct (Hsigned p (or_introl Hp)) as (s & Hs & _).
    apply signed_is_file in Hs as [_ Hs]. cbn [st_fs]. by rewrite Hs. }
  rewrite Hmove in Hmove'. injection Hmove' as <-. cbn [st_fs] in Hsame.
  assert (os.is_dir (st_fs st2) out = true) as Hdir2
    by by rewrite (same_dirs_is_dir fs1).
  (* the delete phase *)
  rewrite remove_files_run in Hrm by done.
  destruct (for_each_remove_fs dups st2) as (st3' & Hrm' & _ & Hfs3).
  rewrite Hrm in Hrm'. injection Hrm' as <-.
  assert (os.is_dir (st_fs st3) out = true) as Hdir3.
  { rewrite <- Hdir2. apply is_dir_lookup. intros _. rewrite Hfs3.
    rewrite bool_decide_false; [done|]. intros [_ Hf].
    unfold os.is_file, os.is_dir in *.
    by destruct (os.node_at (st_fs st2) out) as [[|?]|]. }
  (* the cleanup *)
  apply rmtree_loop_ok in Hclean as (_ & _ & Hfs').
  rewrite <- Hdir3. apply is_dir_lookup. intros _. rewrite Hfs'.
  rewrite bool_decide_false; [done|]. intros (d & Hd & Hd')%Exists_exists.
  rewrite Forall_forall in Hpre. by apply (Hpre d).
Qed.

Lemma run_keeps_output_witness :
  os.is_dir (st_fs (run (sample_world (Some ["N"; "out"]%string)) 5
                        ["prog"; "X"; "Y"; "-o"; "N/out"]%string sample_fs).2)
            (resolve_output (sample_args (Some ["N"; "out"]%string)))
  = true.
Proof.
  apply (run_keeps_output (sample_world (Some ["N"; "out"]%string)) 5
           ["prog"; "X"; "Y"; "-o"; "N/out"]%string sample_fs
           (sample_args (Some ["N"; "out"]%string)) 0);
    [lia | reflexivity | reflexivity | reflexivity | | by vm_compute].
  vm_compute. repeat constructor; by intros [k [=]].
Defined.

(** X14: with accepted arguments and a non-positive number of jobs the
    run raises [ValueError] before anything is scanned, moved or deleted,
    but after the output directory, if missing, was created. *)
Theorem run_nonpositive_jobs w argc argv fs ns :
  3 ≤ argc →
  parse_args w (tail argv) = Some ns →
  forallb (os.is_dir fs) (main_directory ns :: directories ns) = true →
  jobs ns ≤ 0 →
  run w argc argv fs
  = if os.exists_ fs (resolve_output ns) then (Raise ValueError, mkState fs [])
    else match os.mkdir_parents fs (resolve_output ns) with
         | Ok fs1 => (Raise ValueError, mkState fs1 [EMkdir (resolve_output ns)])
         | Raise e => (Raise e, mkState fs [EMkdir (resolve_output ns)])
         end.
Proof.
  intros Hargc Hparse Hdirs Hjobs.
  rewrite (run_validated _ _ _ _ _ Hargc Hparse Hdirs).
  unfold pipeline. unfold mbind at 1, M_bind at 1, get_fs at 1. cbn [st_fs].
  unfold scan_directories, ThreadPoolExecutor.
  assert ((jobs ns <=? 0) = true) as -> by lia.
  destruct (os.exists_ fs (resolve_output ns)).
  - by unfold mbind, M_bind, mret, M_ret, raise.
  - unfold mbind, M_bind, path_mkdir_parents, fs_call, raise. cbn [st_fs st_log].
    by destruct (os.mkdir_parents fs (resolve_output ns)).
Qed.

Lemma run_nonpositive_jobs_witness :
  run no_jobs_world 7 ["prog"; "X"; "Y"; "-o"; "N/out"; "-j"; "0"]%string sample_fs
  = if os.exists_ sample_fs (resolve_output no_jobs_args)
    then (Raise ValueError, mkState sample_fs [])
    else match os.mkdir_parents sample_fs (resolve_output no_jobs_args) with
         | Ok fs1 => (Raise ValueError, mkState fs1 [EMkdir (resolve_output no_jobs_args)])
         | Raise e => (Raise e, mkState sample_fs [EMkdir (resolve_output no_jobs_args)])
         end.
Proof.
  apply run_nonpositive_jobs; [lia | reflexivity | reflexivity | by vm_compute].
Defined.

(** ** No file is scheduled twice *)

Lemma glob_NoDup fs d : NoDup (os.glob fs d).
Proof. unfold os.glob. apply NoDup_filter, NoDup_fst_map_to_list. Qed.

Lemma glob_parent fs d p : p ∈ os.glob fs d → pathlib.parent p = d.
Proof. unfold os.glob. by intros [[_ ?] _]%list_elem_of_filter. Qed.

Lemma candidates_NoDup fs dir_list :
  NoDup dir_list →
  NoDup (concat ((λ d, filter (fingerprints fs) (os.glob fs d)) <$> dir_list)).
Proof.
  induction dir_list as [|d dir_list IH]; csimpl; intros Hnd; [constructor|].
  apply NoDup_cons in Hnd as [Hd Hnd]. apply NoDup_app. split_and!.
  - apply NoDup_filter, glob_NoDup.
  - intros p [_ Hp]%list_elem_of_filter Hp'.
    apply elem_of_concat in Hp' as (l & (d' & -> & Hd')%list_elem_of_fmap & Hpl).
    apply list_elem_of_filter in Hpl as [_ Hpl].
    apply glob_parent in Hp, Hpl. congruence.
  - by apply IH.
Qed.

Lemma records_filter_sublist (P : Z * list Path → Prop) `{∀ g, Decision (P g)}
    (idx : Dict) :
  records (filter P idx) `sublist_of` records idx.
Proof.
  unfold records. induction idx as [|g idx IH]; csimpl; [done|].
  destruct (decide (P g)).
  - rewrite filter_cons_True by done. csimpl. by apply sublist_app.
  - rewrite filter_cons_False by done. by apply sublist_inserts_l.
Qed.

Lemma planned_records out idx :
  groups_nonempty idx →
  omap (λ g, head g.2) (planned_groups out idx)
    ++ concat ((λ g, tail g.2) <$> planned_groups out idx)
  ≡ₚ records (planned_groups out idx).
Proof.
  intros Hne. unfold planned_groups, records.
  assert (groups_nonempty (filter (outside_output out) idx)) as Hne'.
  { unfold groups_nonempty in *. rewrite Forall_forall in *.
    intros g [_ Hg]%list_elem_of_filter. by apply Hne. }
  induction (filter (outside_output out) idx) as [|[s files] G IH]; csimpl; [done|].
  inversion_clear Hne' as [|?? Hfiles HG].
  destruct files as [|r0 rest]; [done|]. csimpl.
  constructor. rewrite <- (IH HG), !app_assoc.
  apply Permutation_app_tail, Permutation_app_comm.
Qed.

(** X15: when the list of directories repeats no directory, no file is
    scheduled twice: the files to move and the files to delete are
    pairwise distinct, and no file is in both lists. *)
Theorem plan_schedules_once w fs dir_list max_workers out files_to_move duplicate_files :
  0 < max_workers →
  (∀ l, as_completed w l ≡ₚ l) →
  NoDup dir_list →
  plan out (merged_index w fs dir_list max_workers)
  = Ok (files_to_move, duplicate_files) →
  NoDup (files_to_move ++ duplicate_files).
Proof.
  intros Hmw Hperm Hnd Hplan.
  destruct (merged_index_keys w fs dir_list max_workers) as [_ Hne].
  rewrite (plan_filter_form _ _ Hne) in Hplan. injection Hplan as <- <-.
  rewrite (planned_records _ _ Hne).
  unfold planned_groups.
  eapply sublist_NoDup; [|apply (records_filter_sublist (outside_output out))].
  rewrite (records_merged_index_glob _ _ _ _ Hmw Hperm).
  by apply candidates_NoDup.
Qed.

Lemma plan_schedules_once_witness :
  NoDup ([["X"; "cat.jpg"]; ["X"; "dog.jpg"]]%string
         ++ [["Y"; "cat_dup.jpg"]; ["Y"; "dog.jpg"]]%string).
Proof.
  apply (plan_schedules_once (sample_world (Some ["N"%string])) sample_fs
           [["X"%string]; ["Y"%string]] 8 ["N"%string]);
    [lia | intros l; reflexivity | | by vm_compute].
  apply NoDup_cons. split; [|apply NoDup_singleton].
  by intros [=]%list_elem_of_singleton.
Defined.

(** ** Exit codes *)

(** X16: [main] returns nothing but -1, -2 and 0: -1 only on a command
    line of fewer than three words, -2 only when the parsed main directory
    or one of the parsed directories is not a directory, 0 only when all
    of them are and the number of jobs is positive. *)
Theorem run_exit_codes w argc argv fs c :
  (run w argc argv fs).1 = Ok c →
  (c = -1 ∧ argc < 3)
  ∨ (∃ ns, 3 ≤ argc ∧ parse_args w (tail argv) = Some ns
           ∧ ((c = -2
               ∧ forallb (os.is_dir fs) (main_directory ns :: directories ns) = false)
              ∨ (c = 0
                 ∧ forallb (os.is_dir fs) (main_directory ns :: directories ns) = true
                 ∧ 0 < jobs ns))).
Proof.
  unfold run, main. destruct (argc <? 3) eqn:Hargc.
  - intros [= <-]. left. split; [done | lia].
  - destruct (parse_args w (tail argv)) as [ns|] eqn:Hparse; [|done].
    unfold mbind, M_bind, mret, M_ret, get_fs. cbn [st_fs].
    destruct (forallb (os.is_dir fs) (main_directory ns :: directories ns)) eqn:Hdirs;
      cbn [negb].
    + intros Hrun. right. exists ns. split_and!; [lia | done |]. right.
      destruct (pipeline w ns (mkState fs [])) as [r st'] eqn:Hp.
      cbn [fst] in Hrun. subst r.
      apply pipeline_ok in Hp as (? & ? & ? & ? & ? & ? & -> & Hjobs & _).
      done.
    + intros [= <-]. right. exists ns. split_and!; [lia | done |]. by left.
Qed.

Lemma run_exit_codes_witness :
  (0 = -1 ∧ 5 < 3)
  ∨ (∃ ns, 3 ≤ 5
           ∧ parse_args (sample_world (Some ["Z"%string]))
                        (tail ["prog"; "X"; "Y"; "-o"; "Z"]%string) = Some ns
           ∧ ((0 = -2
               ∧ forallb (os.is_dir sample_fs) (main_directory ns :: directories ns)
                 = false)
              ∨ (0 = 0
                 ∧ forallb (os.is_dir sample_fs) (main_directory ns :: directories ns)
                   = true
                 ∧ 0 < jobs ns))).
Proof.
  apply (run_exit_codes (sample_world (Some ["Z"%string])) 5
           ["prog"; "X"; "Y"; "-o"; "Z"]%string sample_fs 0).
  by vm_compute.
Defined.

(** ** Witnesses of the properties above *)

Lemma resolve_dir_list_members_witness :
  (∀ d, d ∈ resolve_dir_list (sample_args (Some ["Z"%string]))
        ↔ d = resolve_output (sample_args (Some ["Z"%string]))
          ∨ d = main_directory (sample_args (Some ["Z"%string]))
          ∨ d ∈ directories (sample_args (Some ["Z"%string])))
  ∧ main_directory (sample_args (Some ["Z"%string]))
      :: directories (sample_args (Some ["Z"%string]))
    `suffix_of` resolve_dir_list (sample_args (Some ["Z"%string]))
  ∧ NoDup (resolve_dir_list (sample_args (Some ["Z"%string]))).
Proof.
  destruct (resolve_dir_list_members (sample_args (Some ["Z"%string])))
    as (H1 & H2 & H3).
  split_and!; [exact H1 | exact H2 |]. apply H3.
  apply NoDup_cons. split; [|apply NoDup_singleton].
  by intros [=]%list_elem_of_singleton.
Defined.

Lemma move_file_to_dir_safe_witness :
  let st := mkState sample_fs [] in
  let result := utils.move_file_to_dir 7 ["X"; "dog.jpg"]%string ["Y"%string] false st in
  same_dirs (st_fs st) (st_fs result.2)
  ∧ entries_kept ["Y"%string] (st_fs st) (st_fs result.2)
  ∧ ∀ p', result.1 = Ok p' →
          pathlib.parent p' = ["Y"%string]
          ∧ st_fs st !! p' = None
          ∧ st_fs result.2 !! ["X"; "dog.jpg"]%string = None
          ∧ ∃ c, st_fs st !! ["X"; "dog.jpg"]%string = Some (File c)
                 ∧ st_fs result.2 !! p' = Some (File c).
Proof.
  apply (move_file_to_dir_safe 7 ["X"; "dog.jpg"]%string ["Y"%string]
           (mkState sample_fs []));
    [by vm_compute | by vm_compute | reflexivity].
Defined.

Lemma move_files_spec_witness :
  utils.move_files (λ _, 7%nat) [["X"; "dog.jpg"]; ["X"; "cat.jpg"]]%string
                   ["Y"%string] 0 (mkState sample_fs [])
    = (Raise ValueError, mkState sample_fs [])
  ∧ ∃ st', utils.move_files (λ _, 7%nat) [["X"; "dog.jpg"]; ["X"; "cat.jpg"]]%string
                            ["Y"%string] 8 (mkState sample_fs [])
           = (Ok tt, st')
           ∧ same_dirs sample_fs (st_fs st')
           ∧ entries_kept ["Y"%string] sample_fs (st_fs st').
Proof.
  split.
  - apply move_files_spec. lia.
  - destruct (proj2 (move_files_spec (λ _, 7%nat)
                       [["X"; "dog.jpg"]; ["X"; "cat.jpg"]]%string
                       ["Y"%string] 8 (mkState sample_fs [])))
      as (st' & Hrun & Hkeep); [lia|].
    exists st'. split; [exact Hrun|]. apply Hkeep; [|reflexivity].
    repeat constructor; by vm_compute.
Defined.

(** ** From validation to the cleanup *)

Lemma bind_eq {A B} (m : M A) (k : A → M B) st a st1 :
  m st = (Ok a, st1) → (m ≫= k) st = k a st1.
Proof. unfold mbind, M_bind. by intros ->. Qed.

Lemma scan_directories_run w dir_list mw st :
  0 < mw →
  scan_directories w dir_list mw st
  = (Ok (merged_index w (st_fs st) dir_list mw),
     mkState (st_fs st) (st_log st ++ (EScan <$> dir_list))).
Proof.
  intros Hmw.
  destruct (scan_directories w dir_list mw st) as [[idx|e] st'] eqn:Hscan.
  - by apply scan_directories_ok in Hscan as (_ & -> & ->).
  - exfalso. revert Hscan. unfold scan_directories, ThreadPoolExecutor.
    assert ((mw <=? 0) = false) as -> by lia.
    unfold mbind at 1, M_bind at 1, mret at 1, M_ret at 1.
    unfold mbind at 1, M_bind at 1.
    assert (∀ l st0, (for_each l (λ directory, log (EScan directory)) st0).1 = Ok tt)
      as Hlog.
    { induction l as [|d l IH]; intros st0; [done|].
      cbn [for_each]. unfold mbind, M_bind, log at 1. apply IH. }
    specialize (Hlog dir_list st).
    destruct (for_each dir_list _ st) as [[[]|e'] st1]; [|done].
    by unfold mbind, M_bind, get_fs, mret, M_ret.
Qed.

Lemma submit_and_forget_run task st :
  submit_and_forget task st = (Ok tt, (task st).2).
Proof.
  unfold submit_and_forget, try_except, mret, M_ret.
  by destruct (task st) as [[[]|e] st1].
Qed.

Lemma pipeline_run w ns fs fs1 mk files_to_move duplicate_files :
  0 < jobs ns →
  output_made fs (resolve_output ns) fs1 mk →
  plan (resolve_output ns) (merged_index w fs1 (resolve_dir_list ns) (jobs ns))
  = Ok (files_to_move, duplicate_files) →
  pipeline w ns (mkState fs [])
  = match for_each (tail (resolve_dir_list ns)) shutil_rmtree
            (utils.remove_files duplicate_files (jobs ns)
               (utils.move_files (randint w) files_to_move (resolve_output ns)
                  (jobs ns)
                  (mkState fs1 (mk ++ (EScan <$> resolve_dir_list ns)))).2).2
    with
    | (Ok _, st') => (Ok 0, st')
    | (Raise e, st') => (Raise e, st')
    end.
Proof.
  intros Hjobs Hmade Hplan. unfold pipeline.
  rewrite (bind_eq get_fs _ _ fs (mkState fs [])) by done.
  assert ((if os.exists_ fs (resolve_output ns) then mret tt
           else path_mkdir_parents (resolve_output ns)) (mkState fs [])
          = (Ok tt, mkState fs1 mk)) as Hmk.
  { unfold output_made in Hmade.
    destruct (os.exists_ fs (resolve_output ns)).
    - by destruct Hmade as [-> ->].
    - destruct Hmade as [Hmkdir ->].
      unfold path_mkdir_parents, fs_call. cbn [st_fs st_log]. by rewrite Hmkdir. }
  rewrite (bind_eq _ _ _ _ _ Hmk).
  rewrite (bind_eq _ _ _ _ _ (scan_directories_run w _ _ (mkState fs1 mk) Hjobs)).
  cbn [st_fs st_log]. rewrite Hplan.
  rewrite (bind_eq (of_res (Ok (files_to_move, duplicate_files))) _ _
             (files_to_move, duplicate_files)
             (mkState fs1 (mk ++ (EScan <$> resolve_dir_list ns)))) by done.
  assert (∀ st, ThreadPoolExecutor (jobs ns) st = (Ok tt, st)) as Hpool.
  { intros st. unfold ThreadPoolExecutor.
    by assert ((jobs ns <=? 0) = false) as -> by lia. }
  rewrite (bind_eq _ _ _ _ _ (Hpool _)).
  rewrite (bind_eq _ _ _ _ _ (submit_and_forget_run _ _)).
  rewrite (bind_eq _ _ _ _ _ (Hpool _)).
  rewrite (bind_eq _ _ _ _ _ (submit_and_forget_run _ _)).
  unfold mbind, M_bind, mret, M_ret.
  by destruct (for_each _ shutil_rmtree _) as [[[]|e] st'].
Qed.

(** C8: once its arguments are accepted, the number of jobs is positive
    and the output directory exists or has been created, a run always gets
    to the cleanup, whatever happened to single images: the planner does
    not raise, the move phase and the delete phase end normally, every
    scheduled duplicate has had its removal attempted; and the run then
    ends as the cleanup ends, with 0 when the cleanup completes and with
    the exception of the cleanup otherwise. *)
Theorem exit_code_zero w argc argv fs ns fs1 mk :
  3 ≤ argc →
  parse_args w (tail argv) = Some ns →
  forallb (os.is_dir fs) (main_directory ns :: directories ns) = true →
  0 < jobs ns →
  output_made fs (resolve_output ns) fs1 mk →
  ∃ files_to_move duplicate_files,
    plan (resolve_output ns) (merged_index w fs1 (resolve_dir_list ns) (jobs ns))
    = Ok (files_to_move, duplicate_files)
    ∧ let scanned := mkState fs1 (mk ++ (EScan <$> resolve_dir_list ns)) in
      let moved := utils.move_files (randint w) files_to_move (resolve_output ns)
                     (jobs ns) scanned in
      let removed := utils.remove_files duplicate_files (jobs ns) moved.2 in
      moved.1 = Ok tt
      ∧ removed.1 = Ok tt
      ∧ st_log removed.2 = st_log moved.2 ++ (ERemove <$> duplicate_files)
      ∧ run w argc argv fs
        = match for_each (tail (resolve_dir_list ns)) shutil_rmtree removed.2 with
          | (Ok _, st') => (Ok 0, st')
          | (Raise e, st') => (Raise e, st')
          end
      ∧ ∀ st', for_each (tail (resolve_dir_list ns)) shutil_rmtree removed.2
               = (Ok tt, st') →
               run w argc argv fs = (Ok 0, st').
Proof.
  intros Hargc Hparse Hdirs Hjobs Hmade.
  destruct (plan_merged_index_ok w fs1 (resolve_dir_list ns) (jobs ns)
              (resolve_output ns)) as (m & d & Hplan & _).
  exists m, d. split; [done|]. intros scanned moved removed.
  assert (run w argc argv fs
          = match for_each (tail (resolve_dir_list ns)) shutil_rmtree removed.2 with
            | (Ok _, st') => (Ok 0, st')
            | (Raise e, st') => (Raise e, st')
            end) as Hrun.
  { rewrite (run_validated _ _ _ _ _ Hargc Hparse Hdirs).
    by apply pipeline_run. }
  split_and!.
  - subst moved. rewrite move_files_run by done.
    destruct (move_loop_log (randint w) m (resolve_output ns) scanned)
      as (st2 & evs & -> & _). done.
  - subst removed. rewrite remove_files_run by done.
    destruct (for_each_remove_fs d moved.2) as (st3 & -> & _). done.
  - subst removed. rewrite remove_files_run by done.
    destruct (for_each_remove_fs d moved.2) as (st3 & -> & Hlog & _). done.
  - exact Hrun.
  - intros st' Hclean. by rewrite Hrun, Hclean.
Qed.

Lemma exit_code_zero_witness :
  ∃ files_to_move duplicate_files,
    plan (resolve_output (sample_args (Some ["Z"%string])))
         (merged_index (sample_world (Some ["Z"%string])) faulty_fs
            (resolve_dir_list (sample_args (Some ["Z"%string])))
            (jobs (sample_args (Some ["Z"%string]))))
    = Ok (files_to_move, duplicate_files)
    ∧ let scanned :=
        mkState faulty_fs
          ([] ++ (EScan <$> resolve_dir_list (sample_args (Some ["Z"%string])))) in
      let moved :=
        utils.move_files (randint (sample_world (Some ["Z"%string]))) files_to_move
          (resolve_output (sample_args (Some ["Z"%string])))
          (jobs (sample_args (Some ["Z"%string]))) scanned in
      let removed :=
        utils.remove_files duplicate_files
          (jobs (sample_args (Some ["Z"%string]))) moved.2 in
      moved.1 = Ok tt
      ∧ removed.1 = Ok tt
      ∧ st_log removed.2 = st_log moved.2 ++ (ERemove <$> duplicate_files)
      ∧ run (sample_world (Some ["Z"%string])) 5
            ["prog"; "X"; "Y"; "-o"; "Z"]%string faulty_fs
        = match for_each (tail (resolve_dir_list (sample_args (Some ["Z"%string]))))
                  shutil_rmtree removed.2 with
          | (Ok _, st') => (Ok 0, st')
          | (Raise e, st') => (Raise e, st')
          end
      ∧ ∀ st', for_each (tail (resolve_dir_list (sample_args (Some ["Z"%string]))))
                 shutil_rmtree removed.2
               = (Ok tt, st') →
               run (sample_world (Some ["Z"%string])) 5
                   ["prog"; "X"; "Y"; "-o"; "Z"]%string faulty_fs
               = (Ok 0, st').
Proof.
  apply (exit_code_zero (sample_world (Some ["Z"%string])) 5
           ["prog"; "X"; "Y"; "-o"; "Z"]%string faulty_fs
           (sample_args (Some ["Z"%string])) faulty_fs []);
    [lia | reflexivity | reflexivity | by vm_compute | by vm_compute].
Defined.

(** C1 fails on the code for [prog X Y] with two identical images in [X]:
    the main directory is the output directory, the group of the two
    images starts with a record of that directory, the guard of line 244
    skips the whole group, no deletion is scheduled, and the run ends with
    0 leaving both copies in the output directory. *)
Theorem duplicates_left_in_output_directory :
  let w := sample_world None in
  let ns := sample_args None in
  let images_id := merged_index w twins_fs (resolve_dir_list ns) (jobs ns) in
  let result := run w 3 ["prog"; "X"; "Y"]%string twins_fs in
  resolve_output ns = ["X"%string]
  ∧ dict_get images_id 11 = [["X"; "cat_copy.jpg"]; ["X"; "cat.jpg"]]%string
  ∧ plan (resolve_output ns) images_id = Ok ([["Y"; "dog.jpg"]%string], [])
  ∧ result.1 = Ok 0
  ∧ st_fs result.2 !! ["X"; "cat.jpg"]%string = Some (File (Some 11))
  ∧ st_fs result.2 !! ["X"; "cat_copy.jpg"]%string = Some (File (Some 11)).
Proof. split_and!; by vm_compute. Qed.
